(** * smoothdata: moving-average smoothing of a scipp variable

    A shallow embedding of [src/smoothdata.py] and of the part of the
    scipp/numpy interface it calls, followed by the properties of the
    function.

    Layout:
    - [Py]      : exceptions, results, Python's [range] and [slice.indices];
    - [Scipp]   : n-dimensional variables with labelled dimensions, slicing,
                  item access and assignment, [mean], [len(values)];
    - [Interp]  : the object store and the state-and-exception monad;
    - [Smooth]  : [smoothdata] itself, written statement by statement;
    - [Pure]    : the three loops read as one list of iterations;
    - [Obs], [Samples] : the vocabulary of the statements and the sample
                  inputs;
    - the remaining sections hold the lemmas and the theorems.

    Numbers: the float64 entries of a variable are idealised as exact
    rationals ([Qc]) extended with [NaN] (the value of the mean of an empty
    slice).  Rounding, infinities, variances and units are not modelled:
    the theorems that equate an item of the output with [mean] of a slice
    of the input do not depend on how the mean is computed, while
    [constant_fixed_point] and the values of the samples are those of
    exact arithmetic. *)

From Stdlib Require Import ZArith QArith Qcanon Lia.
From stdpp Require Import gmap strings list.

Set Warnings "-register-all".
Local Open Scope Z_scope.

(* ===================================================================== *)
(** ** Python: exceptions, ranges, slice bounds *)
(* ===================================================================== *)

Module Py.

(** The exceptions a call can end with.  [ValueError] carries the message
    of the [raise] statement.  [IndexError] and [DimensionError] are what
    scipp raises for an item index outside [-n, n) and for an unknown or
    mismatched dimension; [TypeError] is numpy's "len() of unsized
    object".  [Unbound] stands for a reference that names no object. *)
Inductive exn : Type :=
| ValueError (msg : string)
| IndexError
| DimensionError
| TypeError
| Unbound.

Inductive result (A : Type) : Type :=
| Ok (a : A)
| Raise (e : exn).
Arguments Ok {A} a.
Arguments Raise {A} e.

Definition rbind {A B} (r : result A) (k : A -> result B) : result B :=
  match r with
  | Ok a => k a
  | Raise e => Raise e
  end.

(** [range(a, b)]: the integers [a, a+1, ..., b-1]; empty when [b <= a]. *)
Definition range (a b : Z) : list Z := seqZ a (b - a).

(** One bound of [slice(start, stop).indices(n)] for step 1: [None] takes
    the default, a negative bound counts from the end, and the outcome is
    clamped to [0, n]. *)
Definition clamp_bound (dflt : Z) (b : option Z) (n : Z) : Z :=
  match b with
  | None => dflt
  | Some i =>
      if i <? 0 then (if i + n <? 0 then 0 else i + n)
      else (if n <? i then n else i)
  end.

(** [slice(start, stop).indices(n)]: first index and number of items. *)
Definition slice_indices (start stop : option Z) (n : nat) : nat * nat :=
  let lo := clamp_bound 0 start (Z.of_nat n) in
  let hi := clamp_bound (Z.of_nat n) stop (Z.of_nat n) in
  (Z.to_nat lo, Z.to_nat (hi - lo)).

End Py.
Export Py.

Notation "'do' x <- r ; k" := (rbind r (fun x => k))
  (at level 10, x name, r at level 100, k at level 200).

(* ===================================================================== *)
(** ** scipp variables *)
(* ===================================================================== *)

Module Scipp.

Definition Dim := string.

(** An entry of a variable. *)
Inductive num : Type :=
| Fin (q : Qc)
| NaN.

Definition nadd (x y : num) : num :=
  match x, y with
  | Fin a, Fin b => Fin (a + b)%Qc
  | _, _ => NaN
  end.

Definition nsum (l : list num) : num := foldr nadd (Fin 0%Qc) l.

(** numpy's mean of a flat list: sum over count, [NaN] for no items. *)
Definition nmean (l : list num) : num :=
  match l, nsum l with
  | _ :: _, Fin s => Fin (s / Q2Qc (inject_Z (Z.of_nat (length l))))%Qc
  | _, _ => NaN
  end.

(** The values of a variable, as the nested array [var.values] shows
    them: one level of [Seq] per dimension, outermost dimension first. *)
Inductive Data : Type :=
| Num (x : num)
| Seq (es : list Data).

(** A variable: its dimension labels with their extents, outermost
    first, and its values. *)
Record Var : Type := mkVar {
  sizes : list (Dim * nat);
  values : Data
}.

Definition shape (v : Var) : list nat := snd <$> sizes v.
Definition dims (v : Var) : list Dim := fst <$> sizes v.

(** [has_shape sh x]: [x] is a rectangular array of shape [sh]. *)
Fixpoint has_shape (sh : list nat) (x : Data) : bool :=
  match sh, x with
  | [], Num _ => true
  | n :: sh', Seq es => (length es =? n)%nat && forallb (has_shape sh') es
  | _, _ => false
  end.

Definition wf (v : Var) : bool := has_shape (shape v) (values v).

(** Position of a dimension label. *)
Fixpoint dim_index (d : Dim) (sz : list (Dim * nat)) : option nat :=
  match sz with
  | [] => None
  | (d', _) :: sz' =>
      if bool_decide (d' = d) then Some O else S <$> dim_index d sz'
  end.

Definition items (x : Data) : list Data :=
  match x with
  | Num _ => []
  | Seq es => es
  end.

Definition leaf (x : Data) : num :=
  match x with
  | Num a => a
  | Seq _ => NaN
  end.

(** Item [i] along the dimension at depth [k]. *)
Fixpoint get_data (k : nat) (i : nat) (x : Data) {struct k} : Data :=
  match k with
  | O => nth i (items x) (Num NaN)
  | S k' => Seq (get_data k' i <$> items x)
  end.

(** Items [lo, lo+len) along the dimension at depth [k]. *)
Fixpoint slice_data (k : nat) (lo len : nat) (x : Data) {struct k} : Data :=
  match k with
  | O => Seq (take len (drop lo (items x)))
  | S k' => Seq (slice_data k' lo len <$> items x)
  end.

(** Item [i] along the dimension at depth [k] replaced by [val]. *)
Fixpoint set_data (k : nat) (i : nat) (val x : Data) {struct k} : Data :=
  match k with
  | O => Seq (<[i := val]> (items x))
  | S k' => Seq (zip_with (set_data k' i) (items val) (items x))
  end.

(** Entry-wise mean of the arrays [es], each of shape [sh]. *)
Fixpoint mean_cells (sh : list nat) (es : list Data) : Data :=
  match sh with
  | [] => Num (nmean (leaf <$> es))
  | m :: sh' => Seq ((fun j => mean_cells sh' (get_data 0 j <$> es)) <$> seq 0 m)
  end.

(** Mean over the dimension at depth [k] of an array of shape [sh]. *)
Fixpoint mean_data (k : nat) (sh : list nat) (x : Data) {struct k} : Data :=
  match k with
  | O => mean_cells (tail sh) (items x)
  | S k' => Seq (mean_data k' (tail sh) <$> items x)
  end.

Definition extent_at (k : nat) (v : Var) : nat := nth k (shape v) O.

(** scipp's check of an item index: inside [-n, n), negatives count from
    the end. *)
Definition item_index (i : Z) (n : nat) : result nat :=
  if (i <? - Z.of_nat n) || (Z.of_nat n <=? i) then Raise IndexError
  else Ok (Z.to_nat (if i <? 0 then i + Z.of_nat n else i)).

(** [v[d, start:stop]] *)
Definition getitem_slice (d : Dim) (start stop : option Z) (v : Var) : result Var :=
  match dim_index d (sizes v) with
  | None => Raise DimensionError
  | Some k =>
      let '(lo, len) := slice_indices start stop (extent_at k v) in
      Ok {| sizes := alter (fun p => (p.1, len)) k (sizes v);
            values := slice_data k lo len (values v) |}
  end.

(** [v[d, i]] *)
Definition getitem (d : Dim) (i : Z) (v : Var) : result Var :=
  match dim_index d (sizes v) with
  | None => Raise DimensionError
  | Some k =>
      do j <- item_index i (extent_at k v);
      Ok {| sizes := delete k (sizes v);
            values := get_data k j (values v) |}
  end.

(** [v[d, i] = val]: the variable after the assignment.  The value must
    have the dimensions and extents of the item it replaces. *)
Definition setitem (d : Dim) (i : Z) (val : Var) (v : Var) : result Var :=
  match dim_index d (sizes v) with
  | None => Raise DimensionError
  | Some k =>
      do j <- item_index i (extent_at k v);
      if bool_decide (sizes val = delete k (sizes v))
      then Ok {| sizes := sizes v;
                 values := set_data k j (values val) (values v) |}
      else Raise DimensionError
  end.

(** [sc.mean(v, d)] *)
Definition mean (v : Var) (d : Dim) : result Var :=
  match dim_index d (sizes v) with
  | None => Raise DimensionError
  | Some k =>
      Ok {| sizes := delete k (sizes v);
            values := mean_data k (shape v) (values v) |}
  end.

(** [len(v.values)]: numpy's [len], the extent of the outermost
    dimension whichever label it has. *)
Definition len_values (v : Var) : result Z :=
  match sizes v with
  | [] => Raise TypeError
  | (_, n) :: _ => Ok (Z.of_nat n)
  end.

End Scipp.
Export Scipp.

(* ===================================================================== *)
(** ** The object store *)
(* ===================================================================== *)

Module Interp.

(** Variables are objects: a name refers to a cell of the heap, [copy]
    allocates a new cell and an item assignment updates a cell in place.
    [slices] records the bounds of every slice requested so far, oldest
    first. *)
Record state : Type := mkState {
  heap : gmap positive Var;
  slices : list (option Z * option Z)
}.

Definition M (A : Type) : Type := state -> result A * state.

Definition ret {A} (a : A) : M A := fun s => (Ok a, s).
Definition raise {A} (e : exn) : M A := fun s => (Raise e, s).
Definition bind {A B} (m : M A) (k : A -> M B) : M B :=
  fun s => match m s with
           | (Ok a, s') => k a s'
           | (Raise e, s') => (Raise e, s')
           end.
Definition lift {A} (r : result A) : M A := fun s => (r, s).

Definition deref (r : positive) : M Var :=
  fun s => match heap s !! r with
           | Some v => (Ok v, s)
           | None => (Raise Unbound, s)
           end.

Definition alloc (v : Var) : M positive :=
  fun s => let r := fresh (dom (heap s)) in
           (Ok r, {| heap := <[r := v]> (heap s); slices := slices s |}).

Definition assign (r : positive) (v : Var) : M unit :=
  fun s => (Ok tt, {| heap := <[r := v]> (heap s); slices := slices s |}).

Definition note_slice (start stop : option Z) : M unit :=
  fun s => (Ok tt, {| heap := heap s; slices := slices s ++ [(start, stop)] |}).

End Interp.
Export Interp.

Notation "'let!' x := m 'in' k" := (bind m (fun x => k))
  (at level 10, x name, m at level 100, k at level 200).
Notation "m ;;; k" := (bind m (fun _ => k))
  (at level 100, k at level 200, right associativity).

Module Smooth.

(** [r.copy()] *)
Definition var_copy (r : positive) : M positive :=
  let! v := deref r in alloc v.

(** [r[d, start:stop]]: the slice is read at once by its only user, so
    the view is represented by the values it shows. *)
Definition var_slice (r : positive) (d : Dim) (start stop : option Z) : M Var :=
  let! v := deref r in
  (note_slice start stop ;;;
   lift (getitem_slice d start stop v)).

(** [r[d, i] = val] *)
Definition var_setitem (r : positive) (d : Dim) (i : Z) (val : Var) : M unit :=
  let! v := deref r in
  let! v' := lift (setitem d i val v) in
  assign r v'.

(** [for index in xs: body(index)] *)
Fixpoint for_ (xs : list Z) (body : Z -> M unit) : M unit :=
  match xs with
  | [] => ret tt
  | index :: xs' => body index ;;; for_ xs' body
  end.

(** [out[dim, index] = sc.mean(variable[dim, start_index:end_index], dim)] *)
Definition smooth_at (variable out : positive) (dim : Dim)
    (start_index end_index index : Z) : M unit :=
  let! window := var_slice variable dim (Some start_index) (Some end_index) in
  let! m := lift (mean window dim) in
  var_setitem out dim index m.

Definition no_dim_msg : string := "smoothdata was not given a dim to smooth.".
Definition small_msg : string := "smoothdata needs NPoints of 3 or higher.".

Definition smoothdata (variable : positive) (dim : option Dim) (NPoints : Z)
    : M positive :=
  match dim with
  | None => raise (ValueError no_dim_msg)
  | Some dim =>
      if NPoints <? 3 then raise (ValueError small_msg)
      else
        let! whole := var_slice variable dim None None in
        let! data_length := lift (len_values whole) in
        let! out := var_copy variable in
        let hr := NPoints / 2 in
        (for_ (range 0 hr) (fun index =>
           let start_index := 0 in
           let end_index := index + hr + 1 in
           smooth_at variable out dim start_index end_index index) ;;;
         for_ (range hr (data_length - hr)) (fun index =>
           let start_index := index - hr in
           let end_index := index + hr + 1 in
           smooth_at variable out dim start_index end_index index) ;;;
         for_ (range (data_length - hr) data_length) (fun index =>
           let start_index := index - hr in
           let end_index := data_length in
           smooth_at variable out dim start_index end_index index) ;;;
         ret out)
  end.

(** A call on a variable [v] held by a store without other objects:
    the outcome, the variable returned and the slices requested. *)
Definition call (v : Var) (dim : option Dim) (NPoints : Z)
    : result Var * list (option Z * option Z) :=
  let s0 := {| heap := {[ 1%positive := v ]}; slices := [] |} in
  match smoothdata 1%positive dim NPoints s0 with
  | (Ok out, s) =>
      (match heap s !! out with Some o => Ok o | None => Raise Unbound end,
       slices s)
  | (Raise e, s) => (Raise e, slices s)
  end.

End Smooth.
Export Smooth.


(* ===================================================================== *)
(** ** A functional reading of the three loops *)
(* ===================================================================== *)

Module Pure.

(** What one iteration writes: the mean over [d] of the window
    [v[d, w.1:w.2]]. *)
Definition cell (v : Var) (d : Dim) (w : Z * Z) : result Var :=
  do window <- getitem_slice d (Some w.1) (Some w.2) v;
  mean window d.

(** One iteration at index [p.1] with window [p.2], on the current
    value [o] of the output. *)
Definition step (v : Var) (d : Dim) (p : Z * (Z * Z)) (o : Var) : result Var :=
  do m <- cell v d p.2;
  setitem d p.1 m o.

(** The iterations of [plan] in order: how they end, the output variable
    at that point and the windows requested. *)
Fixpoint exec (v : Var) (d : Dim) (plan : list (Z * (Z * Z))) (o : Var)
    : result unit * Var * list (Z * Z) :=
  match plan with
  | [] => (Ok tt, o, [])
  | p :: plan' =>
      match step v d p o with
      | Ok o' => let '(r, o'', l) := exec v d plan' o' in (r, o'', p.2 :: l)
      | Raise e => (Raise e, o, [p.2])
      end
  end.

(** Index and window of every iteration of the start, main and end
    loops, for [data_length = L] and half range [hr]. *)
Definition start_plan (hr : Z) : list (Z * (Z * Z)) :=
  (fun index => (index, (0, index + hr + 1))) <$> range 0 hr.
Definition main_plan (L hr : Z) : list (Z * (Z * Z)) :=
  (fun index => (index, (index - hr, index + hr + 1))) <$> range hr (L - hr).
Definition end_plan (L hr : Z) : list (Z * (Z * Z)) :=
  (fun index => (index, (index - hr, L))) <$> range (L - hr) L.
Definition plan (L hr : Z) : list (Z * (Z * Z)) :=
  start_plan hr ++ main_plan L hr ++ end_plan L hr.

Definition noted (w : Z * Z) : option Z * option Z := (Some w.1, Some w.2).

End Pure.
Export Pure.

(* ===================================================================== *)
(** ** Vocabulary of the statements *)
(* ===================================================================== *)

Module Obs.

(** [length(v, d)]: the number of items along [d]. *)
Definition length_along (v : Var) (d : Dim) : result Z :=
  match dim_index d (sizes v) with
  | Some k => Ok (Z.of_nat (extent_at k v))
  | None => Raise DimensionError
  end.

(** [d] is the outermost dimension of [v]; every one-dimensional
    variable has its only dimension outermost. *)
Definition leading (d : Dim) (v : Var) : Prop :=
  dim_index d (sizes v) = Some O.

(** The value [data_length] takes in [smoothdata]: the extent of the
    outermost dimension. *)
Definition data_length_of (v : Var) : Z :=
  match sizes v with
  | [] => 0
  | (_, n) :: _ => Z.of_nat n
  end.

(** The window of the last loop that visits index [i], for [N] items and
    half range [h]. *)
Definition final_window (N h i : Z) : Z * Z :=
  if N - h <=? i then (i - h, N)
  else if h <=? i then (i - h, i + h + 1)
  else (0, i + h + 1).

(** The call returns, and [o] is the variable it returns. *)
Definition returned (variable : positive) (d : Dim) (NPoints : Z) (st : state)
    (o : Var) : Prop :=
  exists out st', smoothdata variable (Some d) NPoints st = (Ok out, st') /\
                  heap st' !! out = Some o.

(** Bounds that lie inside [0, N] and delimit at least one item. *)
Definition in_range (N : Z) (w : Z * Z) : Prop :=
  0 <= w.1 /\ w.1 < w.2 /\ w.2 <= N.

(** Variables from literals. *)
Definition qnum (n : Z) (d : positive) : Data := Num (Fin (Q2Qc (n # d))).
Definition vec (d : Dim) (l : list Data) : Var :=
  {| sizes := [(d, length l)]; values := Seq l |}.
Definition scalar (x : Data) : Var := {| sizes := []; values := x |}.

(** The array of shape [sh] with every entry equal to [c]. *)
Fixpoint full (sh : list nat) (c : num) : Data :=
  match sh with
  | [] => Num c
  | n :: sh' => Seq (replicate n (full sh' c))
  end.

Definition constant (sz : list (Dim * nat)) (c : num) : Var :=
  {| sizes := sz; values := full (snd <$> sz) c |}.

(** A count as a rational. *)
Definition natq (n : nat) : Qc := Q2Qc (inject_Z (Z.of_nat n)).

(** Equality of values is decidable. *)
Definition num_eq_dec (x y : num) : {x = y} + {x <> y}.
Proof.
  destruct x as [p|], y as [q|]; try (right; congruence); try (left; congruence).
  destruct (decide (p = q)); [left | right]; congruence.
Defined.

Fixpoint data_eq_dec (x y : Data) : {x = y} + {x <> y}.
Proof.
  refine (match x, y with
          | Num a, Num b => cast_if (num_eq_dec a b)
          | Seq xs, Seq ys => cast_if (@list_eq_dec _ data_eq_dec xs ys)
          | _, _ => right _
          end); congruence.
Defined.

#[global] Instance data_eq : EqDecision Data := data_eq_dec.

#[global] Instance var_eq : EqDecision Var.
Proof. solve_decision. Defined.

#[global] Instance exn_eq : EqDecision exn.
Proof. solve_decision. Defined.

#[global] Instance result_eq {A} `{EqDecision A} : EqDecision (result A).
Proof. solve_decision. Defined.

End Obs.
Export Obs.


(* ===================================================================== *)
(** ** Sample variables and stores *)
(* ===================================================================== *)

Module Samples.

Definition ramp5 : Var :=
  vec "x" [qnum 1 1; qnum 2 1; qnum 3 1; qnum 4 1; qnum 5 1].
Definition tens3 : Var := vec "x" [qnum 10 1; qnum 20 1; qnum 30 1].
Definition one1 : Var := vec "x" [qnum 7 1].
Definition sevens2 : Var := constant [("x", 2%nat)] (Fin (Q2Qc 7)).
Definition ones53 : Var := constant [("y", 5%nat); ("x", 3%nat)] (Fin (Q2Qc 1)).

(** Two rows along [y], five columns along [x]. *)
Definition grid25 : Var :=
  {| sizes := [("y", 2%nat); ("x", 5%nat)];
     values := Seq [Seq [qnum 1 1; qnum 2 1; qnum 3 1; qnum 4 1; qnum 5 1];
                    Seq [qnum 10 1; qnum 20 1; qnum 30 1; qnum 40 1; qnum 50 1]] |}.

(** A store that holds [v] and nothing else. *)
Definition store1 (v : Var) : state :=
  {| heap := {[ 1%positive := v ]}; slices := [] |}.

(** [ramp5] smoothed over three points, and the store after that call. *)
Definition smoothed5 : Var :=
  vec "x" [qnum 3 2; qnum 2 1; qnum 3 1; qnum 4 1; qnum 9 2].
Definition after5 : state :=
  {| heap := <[2%positive := smoothed5]> {[ 1%positive := ramp5 ]};
     slices := [(None, None); (Some 0, Some 2); (Some 0, Some 3);
                (Some 1, Some 4); (Some 2, Some 5); (Some 3, Some 5)] |}.

#[global] Instance state_eq : EqDecision state.
Proof. solve_decision. Defined.

End Samples.
Export Samples.

(* ===================================================================== *)
(** ** One-dimensional variables as lists of entries *)
(* ===================================================================== *)

Module Series.

(** A one-dimensional variable from its entries. *)
Definition series (d : Dim) (qs : list Qc) : Var :=
  vec d ((fun q => Num (Fin q)) <$> qs).

(** First index and number of the entries averaged for index [i] of [N]
    entries with half range [h]: the window of the last loop that visits
    [i], after the slice has resolved a negative lower bound from the end
    and cut an upper bound at [N]. *)
Definition selected (N h i : Z) : Z * Z :=
  if N - h <=? i then
    (if i <? h then (N + i - h, h - i) else (i - h, N - i + h))
  else if h <=? i then (i - h, 2 * h + 1)
  else (0, i + h + 1).

(** The entries 10, 20, 30. *)
Definition tens3q : list Qc := [Q2Qc 10; Q2Qc 20; Q2Qc 30].

End Series.
Export Series.

(** Closed equalities between values are settled by evaluation. *)
Ltac by_compute := apply (bool_decide_unpack _); vm_compute; exact I.
Ltac closed :=
  first [ reflexivity | lia | by_compute
        | vm_compute; repeat split; (reflexivity || discriminate) ].

(* ===================================================================== *)
(** ** Rectangular arrays *)
(* ===================================================================== *)

Local Open Scope nat_scope.

Section Arrays.

Lemma has_shape_nil x : has_shape [] x = true <-> exists a, x = Num a.
Proof.
  destruct x; cbn; split; intros H; eauto; try discriminate.
  destruct H as [a Ha]; discriminate.
Qed.

Lemma has_shape_cons n sh x :
  has_shape (n :: sh) x = true <->
  exists es, x = Seq es /\ length es = n /\
             Forall (fun e => has_shape sh e = true) es.
Proof.
  destruct x as [a|es]; cbn.
  - split; [discriminate | intros (es & ? & _); discriminate].
  - rewrite andb_true_iff, Nat.eqb_eq, forallb_forall.
    split.
    + intros [Hl Hf]. exists es. repeat split; auto.
      apply Forall_forall. intros e He. apply Hf. by apply list_elem_of_In.
    + intros (es' & [= <-] & Hl & Hf). split; auto.
      rewrite Forall_forall in Hf.
      intros e He. apply Hf. by apply list_elem_of_In.
Qed.

#[local] Arguments has_shape : simpl never.

Lemma has_shape_get k : forall sh x i,
  has_shape sh x = true -> k < length sh -> i < nth k sh 0 ->
  has_shape (delete k sh) (get_data k i x) = true.
Proof.
  induction k as [|k IH]; intros [|n sh] x i Hx Hk Hi; simpl in *; try lia.
  - apply has_shape_cons in Hx as (es & -> & Hl & Hf). simpl.
    rewrite Forall_forall in Hf. apply Hf.
    apply list_elem_of_In, nth_In. lia.
  - apply has_shape_cons in Hx as (es & -> & Hl & Hf). simpl.
    apply has_shape_cons. eexists; split; [reflexivity|].
    rewrite length_fmap. split; [done|].
    apply Forall_fmap. eapply Forall_impl; [exact Hf|].
    intros e He. simpl. apply IH; auto. lia.
Qed.

Lemma has_shape_set k : forall sh x val i,
  has_shape sh x = true -> has_shape (delete k sh) val = true ->
  k < length sh ->
  has_shape sh (set_data k i val x) = true.
Proof.
  induction k as [|k IH]; intros [|n sh] x val i Hx Hv Hk; simpl in *; try lia.
  - apply has_shape_cons in Hx as (es & -> & Hl & Hf). simpl.
    apply has_shape_cons. eexists; split; [reflexivity|].
    rewrite length_insert. split; [done|].
    destruct (decide (i < length es)) as [Hi|Hi].
    + apply Forall_insert; auto.
    + rewrite list_insert_ge by lia. done.
  - apply has_shape_cons in Hx as (es & -> & Hl & Hf).
    apply has_shape_cons in Hv as (vs & -> & Hlv & Hfv). simpl.
    apply has_shape_cons. eexists; split; [reflexivity|].
    rewrite length_zip_with. split; [lia|].
    clear Hl Hlv. revert es Hf.
    induction Hfv as [|v vs Hv Hvs IHvs]; intros es Hf; [constructor|].
    destruct Hf as [|e es He Hes]; simpl; constructor; auto.
    apply IH; auto. lia.
Qed.

Lemma get_set_eq k : forall sh x val i,
  has_shape sh x = true -> has_shape (delete k sh) val = true ->
  k < length sh -> i < nth k sh 0 ->
  get_data k i (set_data k i val x) = val.
Proof.
  induction k as [|k IH]; intros [|n sh] x val i Hx Hv Hk Hi; simpl in *; try lia.
  - apply has_shape_cons in Hx as (es & -> & Hl & Hf). simpl.
    apply nth_lookup_Some. apply list_lookup_insert_eq. lia.
  - apply has_shape_cons in Hx as (es & -> & Hl & Hf).
    apply has_shape_cons in Hv as (vs & -> & Hlv & Hfv). simpl.
    f_equal. assert (Hlen : length vs = length es) by lia.
    clear Hl Hlv. revert es Hf Hlen.
    induction Hfv as [|v vs Hv Hvs IHvs]; intros es Hf Hlen.
    + done.
    + destruct Hf as [|e es He Hes]; simpl in *; [lia|].
      f_equal; [apply (IH sh); auto; lia | apply IHvs; auto].
Qed.

Lemma get_set_ne k : forall sh x val i j,
  has_shape sh x = true -> has_shape (delete k sh) val = true ->
  k < length sh -> i <> j ->
  get_data k j (set_data k i val x) = get_data k j x.
Proof.
  induction k as [|k IH]; intros [|n sh] x val i j Hx Hv Hk Hij; simpl in *; try lia.
  - apply has_shape_cons in Hx as (es & -> & Hl & Hf). simpl.
    rewrite !nth_lookup. by rewrite list_lookup_insert_ne.
  - apply has_shape_cons in Hx as (es & -> & Hl & Hf).
    apply has_shape_cons in Hv as (vs & -> & Hlv & Hfv). simpl.
    f_equal. assert (Hlen : length vs = length es) by lia.
    clear Hl Hlv. revert es Hf Hlen.
    induction Hfv as [|v vs Hv Hvs IHvs]; intros es Hf Hlen.
    + destruct es; simpl in *; [done|lia].
    + destruct Hf as [|e es He Hes]; simpl in *; [lia|].
      f_equal; [apply (IH sh); auto; lia | apply IHvs; auto].
Qed.

Lemma has_shape_mean_cells sh : forall es,
  has_shape sh (mean_cells sh es) = true.
Proof.
  induction sh as [|m sh IH]; intros es; simpl; [done|].
  apply has_shape_cons. eexists; split; [reflexivity|].
  rewrite length_fmap, length_seq. split; [done|].
  apply Forall_fmap, Forall_forall. intros j _. apply IH.
Qed.

Lemma has_shape_mean k : forall sh x,
  has_shape sh x = true -> k < length sh ->
  has_shape (delete k sh) (mean_data k sh x) = true.
Proof.
  induction k as [|k IH]; intros [|n sh] x Hx Hk; simpl in *; try lia.
  - apply has_shape_mean_cells.
  - apply has_shape_cons in Hx as (es & -> & Hl & Hf). simpl.
    apply has_shape_cons. eexists; split; [reflexivity|].
    rewrite length_fmap. split; [done|].
    apply Forall_fmap. eapply Forall_impl; [exact Hf|].
    intros e He. simpl. apply IH; auto. lia.
Qed.

Lemma has_shape_slice k : forall sh x lo len,
  has_shape sh x = true -> k < length sh -> lo + len <= nth k sh 0 ->
  has_shape (<[k := len]> sh) (slice_data k lo len x) = true.
Proof.
  induction k as [|k IH]; intros [|n sh] x lo len Hx Hk Hb; simpl in *; try lia.
  - apply has_shape_cons in Hx as (es & -> & Hl & Hf). simpl.
    apply has_shape_cons. eexists; split; [reflexivity|].
    rewrite length_take, length_drop. split; [lia|].
    apply Forall_take, Forall_drop, Hf.
  - apply has_shape_cons in Hx as (es & -> & Hl & Hf). simpl.
    apply has_shape_cons. eexists; split; [reflexivity|].
    rewrite length_fmap. split; [done|].
    apply Forall_fmap. eapply Forall_impl; [exact Hf|].
    intros e He. simpl. apply IH; auto. lia.
Qed.

End Arrays.

Local Close Scope nat_scope.

(* ===================================================================== *)
(** ** Items, slices and means of variables *)
(* ===================================================================== *)

Lemma dim_index_lt d sz k : dim_index d sz = Some k -> (k < length sz)%nat.
Proof.
  revert k. induction sz as [|[d' n] sz IH]; intros k; simpl; [done|].
  case_bool_decide; [intros [= <-]; lia|].
  destruct (dim_index d sz) as [k'|]; simpl; [|done].
  intros [= <-]. specialize (IH k' eq_refl). lia.
Qed.

Lemma dim_index_alter d sz (f : Dim * nat -> Dim * nat) j :
  (forall p, (f p).1 = p.1) ->
  dim_index d (alter f j sz) = dim_index d sz.
Proof.
  intros Hf. revert j. induction sz as [|[d' n] sz IH]; intros [|j]; simpl; try done.
  - specialize (Hf (d', n)). destruct (f (d', n)) as [d'' n']. simpl in Hf. by subst.
  - by rewrite <- (IH j).
Qed.

Lemma delete_alter_list {A} (f : A -> A) k (l : list A) :
  delete k (alter f k l) = delete k l.
Proof. revert k. induction l; intros [|k]; simpl; try done. f_equal. apply IHl. Qed.

Lemma delete_insert_list {A} (x : A) k (l : list A) :
  delete k (<[k := x]> l) = delete k l.
Proof. revert k. induction l; intros [|k]; simpl; try done. f_equal. apply IHl. Qed.

Lemma shape_alter k len (sz : list (Dim * nat)) :
  snd <$> alter (fun p => (p.1, len)) k sz = <[k := len]> (snd <$> sz).
Proof. revert k. induction sz as [|[d n] sz IH]; intros [|k]; simpl; try done. f_equal. apply IH. Qed.

Lemma slice_indices_bound s e n lo len :
  slice_indices s e n = (lo, len) -> (lo + len <= n)%nat.
Proof.
  unfold slice_indices, clamp_bound. intros [= <- <-].
  destruct s as [s|], e as [e|];
    repeat case_match; lia.
Qed.

Lemma item_index_ok i n : 0 <= i < Z.of_nat n -> item_index i n = Ok (Z.to_nat i).
Proof.
  intros H. unfold item_index.
  destruct (i <? - Z.of_nat n) eqn:E1; [lia|].
  destruct (Z.of_nat n <=? i) eqn:E2; [lia|]. simpl.
  destruct (i <? 0) eqn:E3; [lia|]. done.
Qed.

Lemma item_index_lt i n j : item_index i n = Ok j -> (j < n)%nat.
Proof.
  unfold item_index. destruct (_ || _) eqn:E; [done|].
  apply orb_false_iff in E as [E1 E2]. intros [= <-].
  destruct (i <? 0) eqn:E3; lia.
Qed.

Lemma item_index_raise i n e : item_index i n = Raise e -> e = IndexError.
Proof. unfold item_index. destruct (_ || _); congruence. Qed.

Lemma extent_at_sizes k o v : sizes o = sizes v -> extent_at k o = extent_at k v.
Proof. unfold extent_at, shape. by intros ->. Qed.

Lemma setitem_ok d k i m o :
  dim_index d (sizes o) = Some k -> 0 <= i < Z.of_nat (extent_at k o) ->
  sizes m = delete k (sizes o) ->
  setitem d i m o =
    Ok {| sizes := sizes o;
          values := set_data k (Z.to_nat i) (values m) (values o) |}.
Proof.
  intros Hk Hi Hm. unfold setitem. rewrite Hk, (item_index_ok _ _ Hi). simpl.
  by rewrite bool_decide_eq_true_2.
Qed.

Lemma getitem_ok d k i o :
  dim_index d (sizes o) = Some k -> 0 <= i < Z.of_nat (extent_at k o) ->
  getitem d i o =
    Ok {| sizes := delete k (sizes o);
          values := get_data k (Z.to_nat i) (values o) |}.
Proof.
  intros Hk Hi. unfold getitem. by rewrite Hk, (item_index_ok _ _ Hi).
Qed.

Section Exec.
Context (v : Var) (d : Dim) (k : nat).
Hypothesis Hk : dim_index d (sizes v) = Some k.

Let N : nat := extent_at k v.

Lemma shape_length_k : (k < length (shape v))%nat.
Proof. unfold shape. rewrite length_fmap. by apply dim_index_lt in Hk. Qed.

(** Every window yields a value with the dimensions of one item. *)
Lemma cell_ok w :
  exists m, cell v d w = Ok m /\ sizes m = delete k (sizes v) /\
            (wf v = true -> wf m = true).
Proof.
  unfold cell, getitem_slice. rewrite Hk.
  destruct (slice_indices _ _ _) as [lo len] eqn:Hs. simpl.
  unfold mean. simpl. rewrite dim_index_alter by done. rewrite Hk.
  eexists; split; [reflexivity|]. simpl. split.
  - apply delete_alter_list.
  - intros Hwf. unfold wf, shape in *. simpl.
    rewrite delete_alter_list, list_fmap_delete, shape_alter.
    rewrite <- (delete_insert_list len k (snd <$> sizes v)).
    pose proof shape_length_k as Hlt. unfold shape in Hlt.
    apply has_shape_mean; [|by rewrite length_insert].
    apply has_shape_slice; auto.
    apply slice_indices_bound in Hs. exact Hs.
Qed.

Lemma step_ok i w o :
  sizes o = sizes v -> wf v = true -> wf o = true -> 0 <= i < Z.of_nat N ->
  exists m o', cell v d w = Ok m /\ step v d (i, w) o = Ok o' /\
    sizes o' = sizes v /\ wf o' = true /\
    getitem d i o' = Ok m /\
    (forall j, j <> i -> 0 <= j < Z.of_nat N -> getitem d j o' = getitem d j o).
Proof.
  intros Hso Hwf Hwo Hi.
  destruct (cell_ok w) as (m & Hm & Hsm & Hwm). specialize (Hwm Hwf).
  assert (Hko : dim_index d (sizes o) = Some k) by (by rewrite Hso).
  assert (HN : extent_at k o = N) by (by apply extent_at_sizes).
  pose proof shape_length_k as Hlt.
  assert (Hom : has_shape (delete k (shape v)) (values m) = true).
  { unfold wf, shape in Hwm. rewrite Hsm, list_fmap_delete in Hwm. exact Hwm. }
  assert (Hoo : has_shape (shape v) (values o) = true).
  { unfold wf, shape in Hwo. by rewrite Hso in Hwo. }
  assert (Hin : (Z.to_nat i < nth k (shape v) 0)%nat).
  { fold (extent_at k v). fold N. lia. }
  set (o' := {| sizes := sizes o;
                values := set_data k (Z.to_nat i) (values m) (values o) |}).
  assert (Hso' : sizes o' = sizes v) by done.
  assert (Hko' : dim_index d (sizes o') = Some k) by done.
  assert (HN' : extent_at k o' = N) by (by apply extent_at_sizes).
  exists m, o'. split; [done|]. split.
  { unfold step. simpl. rewrite Hm. simpl.
    apply (setitem_ok d k); [done| lia |by rewrite Hso]. }
  split; [done|]. split.
  { unfold wf, shape, o'. simpl. rewrite Hso. by apply has_shape_set. }
  split.
  - rewrite (getitem_ok d k) by (done || lia). unfold o'. simpl.
    rewrite (get_set_eq k (shape v)); auto.
    rewrite Hso, <- Hsm. by destruct m.
  - intros j Hj HjN.
    rewrite !(getitem_ok d k) by (done || lia). unfold o'. simpl.
    rewrite (get_set_ne k (shape v)); auto. lia.
Qed.

Lemma step_inv p o o' :
  sizes o = sizes v -> wf v = true -> wf o = true -> step v d p o = Ok o' ->
  sizes o' = sizes v /\ wf o' = true.
Proof.
  intros Hso Hwf Hwo.
  destruct (cell_ok p.2) as (m & Hm & Hsm & Hwm). specialize (Hwm Hwf).
  unfold step. rewrite Hm. simpl. unfold setitem. rewrite Hso, Hk.
  destruct (item_index _ _) as [j|] eqn:Hj; simpl; [|done].
  case_bool_decide; [|done]. intros [= <-]. simpl. split; [done|].
  unfold wf, shape. simpl. apply has_shape_set.
  - unfold wf, shape in Hwo. by rewrite Hso in Hwo.
  - unfold wf, shape in Hwm. by rewrite Hsm, list_fmap_delete in Hwm.
  - apply shape_length_k.
Qed.

(** An iteration raises exactly when its index is outside [-N, N). *)
Lemma step_raise p o e :
  sizes o = sizes v -> step v d p o = Raise e ->
  e = IndexError /\ ~ (- Z.of_nat N <= p.1 < Z.of_nat N).
Proof.
  intros Hso.
  destruct (cell_ok p.2) as (m & Hm & Hsm & _).
  unfold step. rewrite Hm. cbn [rbind]. unfold setitem.
  rewrite Hso, Hk, (extent_at_sizes k o v Hso).
  fold N. unfold item_index.
  destruct (_ || _) eqn:E; simpl.
  - intros [= <-]. split; [done|].
    apply orb_true_iff in E as [E|E];
      [apply Z.ltb_lt in E | apply Z.leb_le in E]; lia.
  - rewrite bool_decide_eq_true_2 by done. done.
Qed.

End Exec.

(* ===================================================================== *)
(** ** Running a plan *)
(* ===================================================================== *)

Section ExecLemmas.
Context (v : Var) (d : Dim).

Lemma exec_app p1 p2 o :
  exec v d (p1 ++ p2) o =
    match exec v d p1 o with
    | (Ok _, o1, l1) => let '(r, o2, l2) := exec v d p2 o1 in (r, o2, l1 ++ l2)
    | (Raise e, o1, l1) => (Raise e, o1, l1)
    end.
Proof.
  revert o. induction p1 as [|p p1 IH]; intros o; simpl.
  - by destruct (exec v d p2 o) as [[r o2] l2].
  - destruct (step v d p o) as [o'|e]; [|done].
    rewrite IH. destruct (exec v d p1 o') as [[[[]|e] o1] l1]; [|done].
    by destruct (exec v d p2 o1) as [[r o2] l2].
Qed.

Lemma exec_sizes pl o : sizes (exec v d pl o).1.2 = sizes o.
Proof.
  revert o. induction pl as [|p pl IH]; intros o; simpl; [done|].
  destruct (step v d p o) as [o'|e] eqn:Hs; [|done].
  specialize (IH o'). destruct (exec v d pl o') as [[r o2] l2]. simpl in *.
  rewrite IH. unfold step in Hs.
  destruct (cell v d p.2) as [m|]; simpl in Hs; [|done].
  unfold setitem in Hs. destruct (dim_index d (sizes o)); [|done].
  destruct (item_index _ _); simpl in Hs; [|done].
  case_bool_decide; [|done]. by injection Hs as <-.
Qed.

Lemma exec_noted_ok pl o o' l :
  exec v d pl o = (Ok tt, o', l) -> l = snd <$> pl.
Proof.
  revert o l. induction pl as [|p pl IH]; intros o l; simpl.
  - by intros [= _ <-].
  - destruct (step v d p o) as [o1|e]; [|done].
    destruct (exec v d pl o1) as [[r o2] l2] eqn:He.
    intros [= -> -> <-]. f_equal. by eapply IH.
Qed.

Lemma exec_noted_prefix pl o : (exec v d pl o).2 `prefix_of` (snd <$> pl).
Proof.
  revert o. induction pl as [|p pl IH]; intros o; simpl; [done|].
  destruct (step v d p o) as [o1|e].
  - specialize (IH o1). destruct (exec v d pl o1) as [[r o2] l2]. simpl in *.
    by apply prefix_cons.
  - simpl. apply prefix_cons, prefix_nil.
Qed.

Context (k : nat).
Hypothesis Hk : dim_index d (sizes v) = Some k.
Hypothesis Hwf : wf v = true.

Lemma exec_wf pl o :
  sizes o = sizes v -> wf o = true -> wf (exec v d pl o).1.2 = true.
Proof.
  revert o. induction pl as [|p pl IH]; intros o Hso Hwo; simpl; [done|].
  destruct (step v d p o) as [o'|e] eqn:Hs; [|done].
  destruct (step_inv v d k Hk p o o' Hso Hwf Hwo Hs) as [Hso' Hwo'].
  specialize (IH o' Hso' Hwo').
  by destruct (exec v d pl o') as [[r o2] l2].
Qed.

(** All iterations succeed when their indices are items of the
    dimension; the final item at an index is the mean written by the last
    iteration on it, and untouched items keep their value. *)
Lemma exec_ok pl : forall o,
  sizes o = sizes v -> wf o = true ->
  Forall (fun p => 0 <= p.1 < Z.of_nat (extent_at k v)) pl ->
  exists o', exec v d pl o = (Ok tt, o', snd <$> pl) /\
    sizes o' = sizes v /\ wf o' = true /\
    (forall j, 0 <= j < Z.of_nat (extent_at k v) -> j ∉ pl.*1 ->
               getitem d j o' = getitem d j o) /\
    (forall p1 i w p2, pl = p1 ++ (i, w) :: p2 -> i ∉ p2.*1 ->
               getitem d i o' = cell v d w).
Proof.
  induction pl as [|[i w] pl IH]; intros o Hso Hwo Hall.
  - exists o. simpl. repeat split; auto.
    intros [|??] ???; discriminate.
  - apply Forall_cons in Hall as [Hi Hall]. simpl in Hi.
    destruct (step_ok v d k Hk i w o Hso Hwf Hwo Hi)
      as (m & o1 & Hm & Hs & Hso1 & Hwo1 & Hget & Hother).
    destruct (IH o1 Hso1 Hwo1 Hall) as (o' & He & Hso' & Hwo' & Huntouched & Hlast).
    exists o'. simpl. rewrite Hs, He. repeat split; auto.
    + intros j Hj Hnotin. apply not_elem_of_cons in Hnotin as [Hne Hnotin].
      rewrite Huntouched by done. by apply Hother.
    + intros [|p p1] i0 w0 p2 Heq Hnotin; simpl in Heq.
      * simplify_eq. rewrite Huntouched by done. by rewrite Hget, Hm.
      * simplify_eq. by eapply Hlast.
Qed.

(** The first iteration whose index is not an item raises. *)
Lemma exec_raise p1 i w p2 o :
  sizes o = sizes v -> wf o = true ->
  Forall (fun p => 0 <= p.1 < Z.of_nat (extent_at k v)) p1 ->
  ~ (- Z.of_nat (extent_at k v) <= i < Z.of_nat (extent_at k v)) ->
  exists o', exec v d (p1 ++ (i, w) :: p2) o
             = (Raise IndexError, o', (snd <$> p1) ++ [w]).
Proof.
  intros Hso Hwo Hall Hi.
  destruct (exec_ok p1 o Hso Hwo Hall) as (o1 & He & Hso1 & _).
  rewrite exec_app, He. simpl.
  destruct (step v d (i, w) o1) as [o2|e] eqn:Hs.
  - exfalso. apply Hi. clear Hi.
    destruct (cell_ok v d k Hk w) as (m & Hm & Hsm & _).
    unfold step in Hs. simpl in Hs. rewrite Hm in Hs. cbn [rbind] in Hs.
    unfold setitem in Hs. rewrite Hso1, Hk in Hs.
    rewrite (extent_at_sizes k o1 v Hso1) in Hs.
    unfold item_index in Hs. destruct (_ || _) eqn:E; [done|].
    apply orb_false_iff in E as [E1 E2].
    apply Z.ltb_ge in E1. apply Z.leb_gt in E2. lia.
  - apply (step_raise v d k Hk) in Hs as [-> _]; [|done]. by exists o1.
Qed.

End ExecLemmas.

(* ===================================================================== *)
(** ** The loops of [smoothdata] run their plan *)
(* ===================================================================== *)

Section Bridge.
Context (variable out : positive) (dim : Dim) (v : Var).
Hypothesis Hne : variable <> out.

Lemma smooth_at_exec s e index o st :
  heap st !! variable = Some v -> heap st !! out = Some o ->
  smooth_at variable out dim s e index st =
    match step v dim (index, (s, e)) o with
    | Ok o' => (Ok tt, {| heap := <[out := o']> (heap st);
                          slices := slices st ++ [(Some s, Some e)] |})
    | Raise x => (Raise x, {| heap := heap st;
                              slices := slices st ++ [(Some s, Some e)] |})
    end.
Proof.
  intros Hv Ho.
  unfold smooth_at, var_slice, var_setitem, bind, deref, note_slice, lift, assign,
    step, cell.
  rewrite Hv. simpl.
  destruct (getitem_slice dim (Some s) (Some e) v) as [win|x]; simpl; [|done].
  destruct (mean win dim) as [m|x]; simpl; [|done].
  rewrite Ho.
  destruct (setitem dim index m o) as [o'|x]; simpl; done.
Qed.

Lemma for_exec (s e : Z -> Z) xs : forall o st,
  heap st !! variable = Some v -> heap st !! out = Some o ->
  for_ xs (fun index => smooth_at variable out dim (s index) (e index) index) st =
    let '(res, o', l) := exec v dim ((fun i => (i, (s i, e i))) <$> xs) o in
    (res, {| heap := <[out := o']> (heap st);
             slices := slices st ++ (noted <$> l) |}).
Proof.
  induction xs as [|i xs IH]; intros o st Hv Ho; simpl.
  - unfold ret. rewrite insert_id by done. rewrite app_nil_r. by destruct st.
  - unfold bind at 1. rewrite (smooth_at_exec _ _ _ o) by done.
    destruct (step v dim (i, (s i, e i)) o) as [o1|x];
      [|by rewrite insert_id].
    rewrite (IH o1); simpl.
    + destruct (exec v dim _ o1) as [[res o'] l]. simpl.
      rewrite insert_insert_eq. by rewrite <- app_assoc.
    + by rewrite lookup_insert_ne.
    + by rewrite lookup_insert_eq.
Qed.

End Bridge.

Lemma fresh_not_dom (h : gmap positive Var) r x :
  h !! r = Some x -> r <> fresh (dom h).
Proof.
  intros Hr ->. apply (is_fresh (dom h)). apply elem_of_dom. eauto.
Qed.

Lemma fresh_lookup (h : gmap positive Var) : h !! fresh (dom h) = None.
Proof. apply not_elem_of_dom, is_fresh. Qed.

Lemma getitem_slice_whole d v k :
  dim_index d (sizes v) = Some k ->
  exists whole, getitem_slice d None None v = Ok whole /\ sizes whole = sizes v.
Proof.
  intros Hk. unfold getitem_slice. rewrite Hk.
  unfold slice_indices, clamp_bound. eexists; split; [reflexivity|]. simpl.
  replace (Z.to_nat (Z.of_nat (extent_at k v) - 0)) with (extent_at k v) by lia.
  unfold extent_at, shape. clear Hk. revert k.
  induction (sizes v) as [|[d' n] sz IH]; intros [|k]; simpl; try done.
  f_equal. apply IH.
Qed.

Lemma len_values_whole v whole d k :
  dim_index d (sizes v) = Some k -> sizes whole = sizes v ->
  len_values whole = Ok (data_length_of v).
Proof.
  intros Hk Hs. unfold len_values, data_length_of. rewrite Hs.
  destruct (sizes v) as [|[d' n] sz]; done.
Qed.

Ltac tidy :=
  unfold ret; simpl; rewrite ?insert_insert_eq, ?fmap_app, <- ?app_assoc; simpl; done.

(** The call, once past the two checks, is the plan of the three loops run
    on a copy of the input. *)
Theorem smoothdata_exec variable d NPoints st v k :
  heap st !! variable = Some v -> dim_index d (sizes v) = Some k ->
  3 <= NPoints ->
  smoothdata variable (Some d) NPoints st =
    let out := fresh (dom (heap st)) in
    let '(res, o', l) := exec v d (plan (data_length_of v) (NPoints / 2)) v in
    (match res with Ok _ => Ok out | Raise x => Raise x end,
     {| heap := <[out := o']> (heap st);
        slices := slices st ++ (None, None) :: (noted <$> l) |}).
Proof.
  intros Hv Hk Hnp. unfold smoothdata.
  destruct (NPoints <? 3) eqn:E; [apply Z.ltb_lt in E; lia|].
  destruct (getitem_slice_whole d v k Hk) as (whole & Hw & Hsw).
  unfold bind at 1. unfold var_slice, bind, deref, note_slice, lift. rewrite Hv. simpl.
  rewrite Hw. rewrite (len_values_whole v whole d k Hk Hsw).
  unfold var_copy, deref, alloc, bind. simpl. rewrite Hv. simpl.
  set (out := fresh (dom (heap st))).
  assert (Hne : variable <> out) by (by eapply fresh_not_dom).
  set (hr := NPoints / 2). set (L := data_length_of v).
  unfold plan.
  set (st1 := {| heap := <[out:=v]> (heap st); slices := slices st ++ [(None, None)] |}).
  assert (Hv1 : heap st1 !! variable = Some v) by (simpl; by rewrite lookup_insert_ne).
  assert (Ho1 : heap st1 !! out = Some v) by (simpl; by rewrite lookup_insert_eq).
  rewrite (for_exec variable out d v Hne (fun _ => 0) (fun i => i + hr + 1)
             (range 0 hr) v st1 Hv1 Ho1).
  fold (start_plan hr). rewrite exec_app.
  destruct (exec v d (start_plan hr) v) as [[[[]|x] o1] l1]; [|tidy].
  set (st2 := {| heap := <[out:=o1]> (heap st1); slices := _ |}).
  assert (Hv2 : heap st2 !! variable = Some v) by (simpl; by rewrite !lookup_insert_ne).
  assert (Ho2 : heap st2 !! out = Some o1) by (simpl; by rewrite lookup_insert_eq).
  rewrite (for_exec variable out d v Hne (fun i => i - hr) (fun i => i + hr + 1)
             (range hr (L - hr)) o1 st2 Hv2 Ho2).
  fold (main_plan L hr). rewrite exec_app.
  destruct (exec v d (main_plan L hr) o1) as [[[[]|x] o2] l2]; [|tidy].
  set (st3 := {| heap := <[out:=o2]> (heap st2); slices := _ |}).
  assert (Hv3 : heap st3 !! variable = Some v) by (simpl; by rewrite !lookup_insert_ne).
  assert (Ho3 : heap st3 !! out = Some o2) by (simpl; by rewrite lookup_insert_eq).
  rewrite (for_exec variable out d v Hne (fun i => i - hr) (fun _ => L)
             (range (L - hr) L) o2 st3 Hv3 Ho3).
  fold (end_plan L hr).
  destruct (exec v d (end_plan L hr) o2) as [[[[]|x] o3] l3]; tidy.
Qed.

(* ===================================================================== *)
(** ** Ranges and the plan of the three loops *)
(* ===================================================================== *)

Lemma elem_of_range x a b : x ∈ range a b <-> a <= x < b.
Proof. unfold range. rewrite elem_of_seqZ. lia. Qed.

Lemma range_split a b i :
  a <= i < b -> range a b = range a i ++ i :: range (i + 1) b.
Proof.
  intros H. unfold range.
  replace (b - a) with ((i - a) + (b - i)) by lia.
  rewrite seqZ_app by lia. f_equal.
  replace (a + (i - a)) with i by lia.
  rewrite seqZ_cons by lia. f_equal. f_equal; lia.
Qed.

Lemma plan_fst (f : Z -> Z * Z) xs : ((fun i => (i, f i)) <$> xs).*1 = xs.
Proof. induction xs; simpl; [done|]. by f_equal. Qed.

Lemma plan_indices L h :
  (plan L h).*1 = range 0 h ++ range h (L - h) ++ range (L - h) L.
Proof.
  unfold plan, start_plan, main_plan, end_plan.
  rewrite !fmap_app.
  by rewrite (plan_fst (fun i => (0, i + h + 1))),
             (plan_fst (fun i => (i - h, i + h + 1))),
             (plan_fst (fun i => (i - h, L))).
Qed.

Lemma plan_windows L h :
  (plan L h).*2 =
    ((fun i => (0, i + h + 1)) <$> range 0 h) ++
    ((fun i => (i - h, i + h + 1)) <$> range h (L - h)) ++
    ((fun i => (i - h, L)) <$> range (L - h) L).
Proof.
  unfold plan, start_plan, main_plan, end_plan.
  rewrite !fmap_app, <- !list_fmap_compose. done.
Qed.

Lemma plan_in_range L h :
  0 <= h <= L -> Forall (fun p => 0 <= p.1 < L) (plan L h).
Proof.
  intros H. apply Forall_forall. intros p Hp.
  assert (Hin : p.1 ∈ (plan L h).*1) by (by apply list_elem_of_fmap_2).
  rewrite plan_indices, !elem_of_app, !elem_of_range in Hin. lia.
Qed.

(** Every index is visited, and the last visit is by the loop that
    [final_window] names. *)
Lemma plan_final L h i :
  0 <= h <= L -> 0 <= i < L ->
  exists p1 p2, plan L h = p1 ++ (i, final_window L h i) :: p2 /\ i ∉ p2.*1.
Proof.
  intros Hh Hi. unfold final_window, plan.
  destruct (L - h <=? i) eqn:E1; [apply Z.leb_le in E1 | apply Z.leb_gt in E1].
  - exists (start_plan h ++ main_plan L h ++
            ((fun i => (i, (i - h, L))) <$> range (L - h) i)),
           ((fun i => (i, (i - h, L))) <$> range (i + 1) L).
    split.
    + unfold end_plan. rewrite (range_split (L - h) L i) by lia.
      rewrite fmap_app, fmap_cons, <- !app_assoc. done.
    + rewrite plan_fst, elem_of_range. lia.
  - destruct (h <=? i) eqn:E2; [apply Z.leb_le in E2 | apply Z.leb_gt in E2].
    + exists (start_plan h ++
              ((fun i => (i, (i - h, i + h + 1))) <$> range h i)),
             (((fun i => (i, (i - h, i + h + 1))) <$> range (i + 1) (L - h))
              ++ end_plan L h).
      split.
      * unfold main_plan. rewrite (range_split h (L - h) i) by lia.
        rewrite fmap_app, fmap_cons, <- !app_assoc. done.
      * unfold end_plan. rewrite fmap_app, !plan_fst, elem_of_app, !elem_of_range. lia.
    + exists ((fun i => (i, (0, i + h + 1))) <$> range 0 i),
             (((fun i => (i, (0, i + h + 1))) <$> range (i + 1) h)
              ++ main_plan L h ++ end_plan L h).
      split.
      * unfold start_plan. rewrite (range_split 0 h i) by lia.
        rewrite fmap_app, fmap_cons, <- !app_assoc. done.
      * unfold main_plan, end_plan.
        rewrite !fmap_app, !plan_fst, !elem_of_app, !elem_of_range. lia.
Qed.

Lemma leading_length d v :
  leading d v -> data_length_of v = Z.of_nat (extent_at 0 v).
Proof.
  unfold leading, data_length_of, extent_at, shape.
  destruct (sizes v) as [|[d' n] sz]; simpl; [done|]. done.
Qed.

Lemma leading_length_along d v :
  leading d v -> length_along v d = Ok (data_length_of v).
Proof.
  intros H. unfold length_along. rewrite H. by rewrite (leading_length d v H).
Qed.

Section Leading.
Context (variable : positive) (d : Dim) (NPoints : Z) (st : state) (v : Var).
Hypothesis Hv : heap st !! variable = Some v.
Hypothesis Hwf : wf v = true.
Hypothesis Hlead : leading d v.
Hypothesis Hnp : 3 <= NPoints.

Let N := data_length_of v.
Let h := NPoints / 2.

(** With at least [h] items the call returns a new variable of the
    same sizes whose item at every index is the mean over the window of
    the last loop visiting it; the slices requested are those of the
    plan. *)
Theorem smoothdata_returns :
  h <= N ->
  exists o,
    smoothdata variable (Some d) NPoints st =
      (Ok (fresh (dom (heap st))),
       {| heap := <[fresh (dom (heap st)) := o]> (heap st);
          slices := slices st ++ (None, None) :: (noted <$> (plan N h).*2) |})
    /\ sizes o = sizes v /\ wf o = true
    /\ forall i, 0 <= i < N -> getitem d i o = cell v d (final_window N h i).
Proof.
  intros HhN.
  assert (Hh : 1 <= h) by (unfold h; apply Z.div_le_lower_bound; lia).
  pose proof (leading_length d v Hlead) as HN. fold N in HN.
  rewrite (smoothdata_exec variable d NPoints st v 0 Hv Hlead Hnp).
  fold N h. cbv zeta.
  destruct (exec_ok v d 0 Hlead Hwf (plan N h) v eq_refl Hwf)
    as (o & He & Hso & Hwo & _ & Hlast).
  { rewrite <- HN. apply plan_in_range. lia. }
  rewrite He. exists o. repeat split; auto.
  intros i Hi.
  destruct (plan_final N h i) as (p1 & p2 & Hp & Hnot); [lia|lia|].
  by apply (Hlast p1 i _ p2).
Qed.

(** With fewer than [h] items the start loop reaches index [N], which is
    not an item, and the call ends there with [IndexError]. *)
Theorem smoothdata_short :
  N < h ->
  exists o,
    smoothdata variable (Some d) NPoints st =
      (Raise IndexError,
       {| heap := <[fresh (dom (heap st)) := o]> (heap st);
          slices := slices st ++ (None, None) ::
            (noted <$> ((fun i => (0, i + h + 1)) <$> range 0 (N + 1))) |}).
Proof.
  intros HNh.
  pose proof (leading_length d v Hlead) as HN. fold N in HN.
  assert (H0 : 0 <= N) by lia.
  rewrite (smoothdata_exec variable d NPoints st v 0 Hv Hlead Hnp).
  fold N h. cbv zeta.
  assert (Hplan : plan N h =
    ((fun i => (i, (0, i + h + 1))) <$> range 0 N) ++
    (N, (0, N + h + 1)) ::
    (((fun i => (i, (0, i + h + 1))) <$> range (N + 1) h)
       ++ main_plan N h ++ end_plan N h)).
  { unfold plan, start_plan. rewrite (range_split 0 h N) by lia.
    rewrite fmap_app, fmap_cons, <- !app_assoc. done. }
  destruct (exec_raise v d 0 Hlead Hwf
              ((fun i => (i, (0, i + h + 1))) <$> range 0 N) N (0, N + h + 1)
              (((fun i => (i, (0, i + h + 1))) <$> range (N + 1) h)
                 ++ main_plan N h ++ end_plan N h) v eq_refl Hwf)
    as (o & He).
  { apply Forall_forall. intros p Hp.
    apply list_elem_of_fmap in Hp as (i & -> & Hi). simpl.
    apply elem_of_range in Hi. lia. }
  { lia. }
  rewrite Hplan, He. exists o. do 4 f_equal.
  rewrite (range_split 0 (N + 1) N) by lia.
  replace (range (N + 1) (N + 1)) with (@nil Z)
    by (unfold range; by rewrite seqZ_nil by lia).
  rewrite !fmap_app, <- !list_fmap_compose. done.
Qed.

End Leading.

(* ===================================================================== *)
(** ** Constant arrays *)
(* ===================================================================== *)

Section Constants.
Local Open Scope nat_scope.

Lemma natq_S n : natq (S n) = (natq n + 1)%Qc.
Proof.
  unfold natq. apply Qc_is_canon. unfold Qcplus, Q2Qc. cbn [this].
  rewrite !Qred_correct, Nat2Z.inj_succ. unfold Z.succ.
  rewrite inject_Z_plus. reflexivity.
Qed.

Lemma natq_pos n : natq (S n) <> 0%Qc.
Proof.
  unfold natq. intros H. apply (f_equal this) in H. simpl in H.
  assert (Hq : (inject_Z (Z.of_nat (S n)) == 0)%Q).
  { rewrite <- (Qred_correct (inject_Z _)). rewrite H. reflexivity. }
  unfold Qeq, inject_Z in Hq. simpl in Hq. lia.
Qed.

Lemma nsum_replicate_fin n q :
  nsum (replicate n (Fin q)) = Fin (natq n * q)%Qc.
Proof.
  induction n as [|n IH].
  - unfold nsum. cbn [replicate foldr]. f_equal.
    change (natq 0) with 0%Qc. ring.
  - unfold nsum in *. cbn [replicate foldr]. rewrite IH. cbn [nadd]. f_equal.
    rewrite natq_S. ring.
Qed.

Lemma nmean_replicate n c : 0 < n -> nmean (replicate n c) = c.
Proof.
  intros Hn. destruct n as [|n]; [lia|]. destruct c as [q|].
  - unfold nmean. cbn [replicate].
    change (Fin q :: replicate n (Fin q)) with (replicate (S n) (Fin q)).
    rewrite nsum_replicate_fin, length_replicate. f_equal.
    fold (natq (S n)). field. apply natq_pos.
  - reflexivity.
Qed.

Lemma mean_cells_full sh c n :
  0 < n -> mean_cells sh (replicate n (full sh c)) = full sh c.
Proof.
  intros Hn. induction sh as [|m sh IH]; simpl.
  - rewrite fmap_replicate. simpl. by rewrite nmean_replicate.
  - f_equal. apply list_eq. intros j.
    rewrite list_lookup_fmap.
    destruct (decide (j < m)) as [Hj|Hj].
    + rewrite lookup_seq_lt by done. rewrite lookup_replicate_2 by done. simpl.
      f_equal. rewrite fmap_replicate. simpl.
      rewrite (nth_lookup_Some _ _ _ (full sh c)); [apply IH|].
      by apply lookup_replicate_2.
    + rewrite lookup_seq_ge by lia. symmetry. apply lookup_replicate_None. lia.
Qed.

Lemma slice_data_full k : forall sh c lo len,
  k < length sh -> lo + len <= nth k sh 0 ->
  slice_data k lo len (full sh c) = full (<[k := len]> sh) c.
Proof.
  induction k as [|k IH]; intros [|n sh] c lo len Hk Hb; simpl in *; try lia.
  - f_equal. rewrite drop_replicate, take_replicate. f_equal. lia.
  - f_equal. rewrite fmap_replicate. f_equal. apply IH; lia.
Qed.

Lemma mean_data_full k : forall sh c,
  k < length sh -> 0 < nth k sh 0 ->
  mean_data k sh (full sh c) = full (delete k sh) c.
Proof.
  induction k as [|k IH]; intros [|n sh] c Hk Hn; simpl in *; try lia.
  - by apply mean_cells_full.
  - f_equal. rewrite fmap_replicate. f_equal. apply IH; lia.
Qed.

End Constants.

(* ===================================================================== *)
(** ** The checks, the store and the shape *)
(* ===================================================================== *)

Lemma step_exn v d p o e :
  step v d p o = Raise e -> e = IndexError \/ e = DimensionError.
Proof.
  unfold step, cell, getitem_slice, mean, setitem.
  destruct (dim_index d (sizes v)) as [k|]; simpl; [|intros [= <-]; auto].
  destruct (slice_indices (Some p.2.1) (Some p.2.2) (extent_at k v)) as [lo len].
  simpl.
  destruct (dim_index d (alter _ k (sizes v))); simpl; [|intros [= <-]; auto].
  destruct (dim_index d (sizes o)); [|intros [= <-]; auto].
  destruct (item_index _ _) as [j|x] eqn:Hj; simpl.
  - case_bool_decide; [done|intros [= <-]; auto].
  - intros [= <-]. left. by eapply item_index_raise.
Qed.

Lemma exec_exn v d pl o e o' l :
  exec v d pl o = (Raise e, o', l) -> e = IndexError \/ e = DimensionError.
Proof.
  revert o l. induction pl as [|p pl IH]; intros o l; simpl; [done|].
  destruct (step v d p o) as [o1|x] eqn:Hs.
  - destruct (exec v d pl o1) as [[r o2] l2] eqn:He.
    intros [= -> -> <-]. by eapply IH.
  - intros [= <- _ _]. by eapply step_exn.
Qed.

(** The outcomes of a call that passes the two checks. *)
Lemma smoothdata_cases variable d NPoints st :
  3 <= NPoints ->
  (heap st !! variable = None /\
   smoothdata variable (Some d) NPoints st = (Raise Unbound, st)) \/
  (exists v, heap st !! variable = Some v /\ dim_index d (sizes v) = None /\
   smoothdata variable (Some d) NPoints st =
     (Raise DimensionError,
      {| heap := heap st; slices := slices st ++ [(None, None)] |})) \/
  (exists v k, heap st !! variable = Some v /\ dim_index d (sizes v) = Some k).
Proof.
  intros Hnp. destruct (heap st !! variable) as [v|] eqn:Hv.
  - right. destruct (dim_index d (sizes v)) as [k|] eqn:Hk.
    + right. by exists v, k.
    + left. exists v. repeat split; auto.
      unfold smoothdata. destruct (NPoints <? 3) eqn:E; [apply Z.ltb_lt in E; lia|].
      unfold bind at 1. unfold var_slice, bind, deref, note_slice, lift.
      rewrite Hv. simpl. unfold getitem_slice. by rewrite Hk.
  - left. split; [done|].
    unfold smoothdata. destruct (NPoints <? 3) eqn:E; [apply Z.ltb_lt in E; lia|].
    unfold bind at 1. unfold var_slice, bind, deref. by rewrite Hv.
Qed.

Lemma smoothdata_ok_inv variable d NPoints st out st' :
  smoothdata variable (Some d) NPoints st = (Ok out, st') ->
  3 <= NPoints /\ exists v k,
    heap st !! variable = Some v /\ dim_index d (sizes v) = Some k.
Proof.
  intros H.
  assert (Hnp : 3 <= NPoints).
  { unfold smoothdata in H. destruct (NPoints <? 3) eqn:E; [done|].
    by apply Z.ltb_ge in E. }
  split; [done|].
  destruct (smoothdata_cases variable d NPoints st Hnp)
    as [[_ H1]|[(v & _ & _ & H1)|H1]]; [congruence|congruence|done].
Qed.

(** C5.  The two checks come first and are the only source of a
    [ValueError]: without a dimension the call raises the "not given a dim"
    error whatever [NPoints] is; with a dimension and [NPoints < 3]
    (so for 1 and 2) it raises the "3 or higher" error; in both cases
    nothing has been computed, the store is as before the call.  Conversely
    a call that ends with a [ValueError] had no dimension or [NPoints < 3].
    With [NPoints = 3] and a dimension the checks pass, and the call
    returns on every well-formed variable that has [dim] outermost and at
    least one item along it. *)
Theorem C5_precondition_errors :
  (forall variable NPoints st,
     smoothdata variable None NPoints st = (Raise (ValueError no_dim_msg), st)) /\
  (forall variable d NPoints st, NPoints < 3 ->
     smoothdata variable (Some d) NPoints st = (Raise (ValueError small_msg), st)) /\
  (forall variable dim NPoints st msg st',
     smoothdata variable dim NPoints st = (Raise (ValueError msg), st') ->
     (dim = None \/ NPoints < 3) /\ st' = st) /\
  (forall variable d st v,
     heap st !! variable = Some v -> wf v = true -> leading d v ->
     1 <= data_length_of v ->
     exists out st', smoothdata variable (Some d) 3 st = (Ok out, st')).
Proof.
  split; [done|]. split; [|split].
  - intros variable d NPoints st H. unfold smoothdata.
    by rewrite (proj2 (Z.ltb_lt NPoints 3) H).
  - intros variable [d|] NPoints st msg st' H.
    + destruct (Z.lt_ge_cases NPoints 3) as [Hlt|Hge].
      * split; [by right|]. unfold smoothdata in H.
        rewrite (proj2 (Z.ltb_lt NPoints 3) Hlt) in H. by injection H.
      * exfalso.
        destruct (smoothdata_cases variable d NPoints st Hge)
          as [[_ H1]|[(v & _ & _ & H1)|(v & k & Hv & Hk)]]; try congruence.
        rewrite (smoothdata_exec variable d NPoints st v k Hv Hk Hge) in H.
        cbv zeta in H.
        destruct (exec v d _ v) as [[[[]|x] o'] l] eqn:He; [done|].
        apply exec_exn in He. destruct He; congruence.
    + split; [by left|]. by injection H.
  - intros variable d st v Hv Hwf Hlead HN.
    destruct (smoothdata_returns variable d 3 st v Hv Hwf Hlead) as (o & H & _);
      [lia| |eauto].
    change (3 / 2) with 1. lia.
Qed.

(** C6.  A call that returns leaves the input alone: the returned
    reference is a cell that did not exist before the call, hence differs
    from the input, and every object of the store, the input among them,
    holds after the call the value it held before. *)
Theorem C6_input_unchanged variable dim NPoints st out st' :
  smoothdata variable dim NPoints st = (Ok out, st') ->
  out <> variable /\ heap st !! out = None /\
  (exists v, heap st !! variable = Some v /\ heap st' !! variable = Some v) /\
  (forall r x, heap st !! r = Some x -> heap st' !! r = Some x) /\
  is_Some (heap st' !! out).
Proof.
  intros H. destruct dim as [d|]; [|done].
  destruct (smoothdata_ok_inv _ _ _ _ _ _ H) as (Hnp & v & k & Hv & Hk).
  rewrite (smoothdata_exec variable d NPoints st v k Hv Hk Hnp) in H.
  cbv zeta in H.
  destruct (exec v d _ v) as [[[[]|x] o'] l]; [|done].
  injection H as <- <-. simpl.
  assert (Hfresh : heap st !! fresh (dom (heap st)) = None) by apply fresh_lookup.
  assert (Hother : forall r x, heap st !! r = Some x ->
            <[fresh (dom (heap st)) := o']> (heap st) !! r = Some x).
  { intros r x Hr. rewrite lookup_insert_ne; [done|]. congruence. }
  split; [congruence|]. split; [done|]. split; [eauto|]. split; [done|].
  rewrite lookup_insert_eq. eauto.
Qed.

Lemma length_along_sizes o v d :
  sizes o = sizes v -> length_along o d = length_along v d.
Proof.
  intros H. unfold length_along. rewrite H.
  destruct (dim_index d (sizes v)); [|done]. by rewrite (extent_at_sizes _ o v H).
Qed.

(** C7.  A call that returns on a well-formed variable returns a
    variable with the same dimension labels and extents, whose values fill
    exactly that shape: the length along the smoothing dimension and along
    every other dimension is that of the input. *)
Theorem C7_shape_preserved variable d NPoints st out st' v :
  smoothdata variable (Some d) NPoints st = (Ok out, st') ->
  heap st !! variable = Some v -> wf v = true ->
  exists o, heap st' !! out = Some o /\ sizes o = sizes v /\ wf o = true /\
    forall d', length_along o d' = length_along v d'.
Proof.
  intros H Hv Hwf.
  destruct (smoothdata_ok_inv _ _ _ _ _ _ H) as (Hnp & v' & k & Hv' & Hk).
  assert (v' = v) as -> by congruence.
  rewrite (smoothdata_exec variable d NPoints st v k Hv Hk Hnp) in H.
  cbv zeta in H.
  pose proof (exec_sizes v d (plan (data_length_of v) (NPoints / 2)) v) as Hs.
  pose proof (exec_wf v d k Hk Hwf (plan (data_length_of v) (NPoints / 2)) v
                eq_refl Hwf) as Hw.
  destruct (exec v d _ v) as [[[[]|x] o'] l]; [|done].
  injection H as <- <-. simpl in *.
  exists o'. rewrite lookup_insert_eq. repeat split; auto.
  intros d'. by apply length_along_sizes.
Qed.

Lemma half_even NPoints :
  Z.even NPoints = true -> (NPoints + 1) / 2 = NPoints / 2 /\
                            2 * (NPoints / 2) + 1 = NPoints + 1.
Proof.
  intros H. apply Z.even_spec in H as [m ->].
  replace (2 * m + 1) with (1 + m * 2) by lia.
  rewrite Z.div_add by lia. replace (2 * m) with (m * 2) by lia.
  rewrite Z.div_mul by lia. change (1 / 2) with 0. lia.
Qed.

(** C8, as amended.  For an even [NPoints >= 4] the slices the three
    loops request are those of the plan for the half range [NPoints / 2]
    computed from the value as given.  Since [(NPoints + 1) / 2] is the same
    number, the call is indistinguishable from the call with [NPoints + 1],
    and a full window [index - hr, index + hr + 1) holds [NPoints + 1]
    items: the even size acts as the next odd one. *)
Theorem C8_even_window variable d NPoints st :
  Z.even NPoints = true -> 4 <= NPoints ->
  smoothdata variable (Some d) NPoints st
    = smoothdata variable (Some d) (NPoints + 1) st /\
  2 * (NPoints / 2) + 1 = NPoints + 1 /\
  forall v k, heap st !! variable = Some v -> dim_index d (sizes v) = Some k ->
    exists l,
      slices (smoothdata variable (Some d) NPoints st).2
        = slices st ++ (None, None) :: (noted <$> l) /\
      l `prefix_of` (plan (data_length_of v) (NPoints / 2)).*2 /\
      (forall out, (smoothdata variable (Some d) NPoints st).1 = Ok out ->
                   l = (plan (data_length_of v) (NPoints / 2)).*2).
Proof.
  intros Hev Hnp. destruct (half_even NPoints Hev) as [Hh Hw].
  split; [|split; [done|]].
  - unfold smoothdata. rewrite Hh.
    destruct (NPoints <? 3) eqn:E1; [apply Z.ltb_lt in E1; lia|].
    destruct (NPoints + 1 <? 3) eqn:E2; [apply Z.ltb_lt in E2; lia|]. done.
  - intros v k Hv Hk.
    rewrite (smoothdata_exec variable d NPoints st v k Hv Hk) by lia.
    cbv zeta.
    pose proof (exec_noted_prefix v d (plan (data_length_of v) (NPoints / 2)) v) as Hp.
    pose proof (exec_noted_ok v d (plan (data_length_of v) (NPoints / 2)) v) as Ho.
    destruct (exec v d _ v) as [[r o'] l]. simpl in *.
    exists l. repeat split; auto.
    intros out Hout. destruct r as [[]|x]; [|done]. by eapply Ho.
Qed.

(* ===================================================================== *)
(** ** Windows: widths, constants, bounds *)
(* ===================================================================== *)

(** The worked example of the specification for [NPoints = 3]. *)
Example scenario_3 :
  (call (vec "x" [qnum 1 1; qnum 2 1; qnum 3 1; qnum 4 1; qnum 5 1]) (Some "x") 3).1
  = Ok (vec "x" [qnum 3 2; qnum 2 1; qnum 3 1; qnum 4 1; qnum 9 2]).
Proof. by_compute. Qed.

(** Five items smoothed with [NPoints = 5]. *)
Example scenario_5 :
  (call (vec "x" [qnum 10 1; qnum 20 1; qnum 30 1; qnum 40 1; qnum 50 1])
        (Some "x") 5).1
  = Ok (vec "x" [qnum 20 1; qnum 25 1; qnum 30 1; qnum 35 1; qnum 40 1]).
Proof. by_compute. Qed.

Lemma slice_length d a b v w N :
  length_along v d = Ok N -> 0 <= a <= b -> b <= N ->
  getitem_slice d (Some a) (Some b) v = Ok w ->
  length_along w d = Ok (b - a).
Proof.
  unfold length_along, getitem_slice.
  destruct (dim_index d (sizes v)) as [k|] eqn:Hk; [|done].
  intros [= <-] Hab HbN.
  unfold slice_indices, clamp_bound.
  destruct (a <? 0) eqn:E1; [apply Z.ltb_lt in E1; lia|].
  destruct (b <? 0) eqn:E2; [apply Z.ltb_lt in E2; lia|].
  destruct (Z.of_nat (extent_at k v) <? a) eqn:E3; [apply Z.ltb_lt in E3; lia|].
  destruct (Z.of_nat (extent_at k v) <? b) eqn:E4; [apply Z.ltb_lt in E4; lia|].
  intros [= <-]. simpl. rewrite dim_index_alter by done. rewrite Hk.
  f_equal. unfold extent_at, shape. simpl. rewrite shape_alter.
  pose proof (dim_index_lt _ _ _ Hk) as Hlt.
  rewrite (nth_lookup_Some _ _ _ (Z.to_nat (b - a))); [lia|].
  apply list_lookup_insert_eq. by rewrite length_fmap.
Qed.

Lemma odd_width NPoints :
  2 * (NPoints / 2) + 1 = (if Z.odd NPoints then NPoints else NPoints + 1).
Proof.
  destruct (Z.odd NPoints) eqn:E.
  - apply Z.odd_spec in E as [m ->].
    replace (2 * m + 1) with (1 + m * 2) by lia.
    rewrite Z.div_add by lia. change (1 / 2) with 0. lia.
  - rewrite <- Z.negb_even in E. apply negb_false_iff in E.
    by apply half_even in E as [_ ->].
Qed.

Lemma has_shape_full sh c : has_shape sh (full sh c) = true.
Proof.
  induction sh as [|n sh IH]; [done|].
  apply has_shape_cons. eexists; split; [reflexivity|].
  rewrite length_replicate. split; [done|].
  apply Forall_forall. intros e He. by apply elem_of_replicate in He as [-> _].
Qed.

Lemma wf_constant sz c : wf (constant sz c) = true.
Proof. apply has_shape_full. Qed.

Lemma get_data_full k : forall sh c i,
  (k < length sh)%nat -> (i < nth k sh 0)%nat ->
  get_data k i (full sh c) = full (delete k sh) c.
Proof.
  induction k as [|k IH]; intros [|n sh] c i Hk Hi; simpl in *; try lia.
  - apply nth_lookup_Some. by apply lookup_replicate_2.
  - f_equal. rewrite fmap_replicate. f_equal. apply IH; lia.
Qed.

(** The mean over a window that holds at least one item of a constant
    variable is the constant. *)
Lemma cell_constant sz c d k w lo len :
  dim_index d sz = Some k ->
  slice_indices (Some w.1) (Some w.2) (extent_at k (constant sz c)) = (lo, len) ->
  (0 < len)%nat ->
  cell (constant sz c) d w = Ok (constant (delete k sz) c).
Proof.
  intros Hk Hs Hlen. unfold cell, getitem_slice.
  change (sizes (constant sz c)) with sz. rewrite Hk, Hs. cbn [rbind].
  unfold mean. cbn [sizes values]. rewrite dim_index_alter by done. rewrite Hk.
  unfold constant. f_equal. f_equal.
  - apply delete_alter_list.
  - pose proof (dim_index_lt _ _ _ Hk) as Hlt.
    pose proof (slice_indices_bound _ _ _ _ _ Hs) as Hb.
    unfold extent_at, shape in Hb. simpl in Hb.
    unfold shape. simpl.
    rewrite slice_data_full; [|by rewrite length_fmap|done].
    rewrite shape_alter, mean_data_full.
    + by rewrite delete_insert_list, list_fmap_delete.
    + by rewrite length_insert, length_fmap.
    + rewrite (nth_lookup_Some _ _ _ len); [done|].
      apply list_lookup_insert_eq. by rewrite length_fmap.
Qed.

Lemma getitem_constant sz c d k i :
  dim_index d sz = Some k -> 0 <= i < Z.of_nat (extent_at k (constant sz c)) ->
  getitem d i (constant sz c) = Ok (constant (delete k sz) c).
Proof.
  intros Hk Hi. rewrite (getitem_ok d k) by done. unfold constant. simpl.
  f_equal. f_equal. pose proof (dim_index_lt _ _ _ Hk) as Hlt.
  unfold extent_at, shape in Hi. simpl in Hi.
  rewrite get_data_full; [by rewrite list_fmap_delete|by rewrite length_fmap|lia].
Qed.

(** With [1 <= h <= N] the last window of every index holds an item. *)
Lemma final_window_items N h i lo len :
  1 <= h <= Z.of_nat N -> 0 <= i < Z.of_nat N ->
  slice_indices (Some (final_window (Z.of_nat N) h i).1)
                (Some (final_window (Z.of_nat N) h i).2) N = (lo, len) ->
  (0 < len)%nat.
Proof.
  intros Hh Hi. unfold final_window, slice_indices, clamp_bound.
  repeat case_match; simpl in *; intros [= <- <-]; lia.
Qed.

(** Constants are fixed points when the call returns, the mean being
    computed exactly. *)
Theorem constant_fixed_point variable d NPoints st sz c :
  heap st !! variable = Some (constant sz c) ->
  leading d (constant sz c) -> 3 <= NPoints ->
  NPoints / 2 <= data_length_of (constant sz c) ->
  exists out st' o,
    smoothdata variable (Some d) NPoints st = (Ok out, st') /\
    heap st' !! out = Some o /\ sizes o = sz /\
    forall i, 0 <= i < data_length_of (constant sz c) ->
      getitem d i o = Ok (constant (delete 0%nat sz) c) /\
      getitem d i (constant sz c) = Ok (constant (delete 0%nat sz) c).
Proof.
  intros Hv Hlead Hnp HhN.
  destruct (smoothdata_returns variable d NPoints st _ Hv (wf_constant sz c)
              Hlead Hnp HhN) as (o & Hcall & Hso & _ & Hitems).
  eexists _, _, o. split; [exact Hcall|]. simpl. rewrite lookup_insert_eq.
  split; [done|]. split; [done|].
  intros i Hi. pose proof (leading_length d _ Hlead) as HN.
  assert (Hh : 1 <= NPoints / 2) by (apply Z.div_le_lower_bound; lia).
  split.
  - rewrite (Hitems i Hi).
    destruct (slice_indices
      (Some (final_window (data_length_of (constant sz c)) (NPoints / 2) i).1)
      (Some (final_window (data_length_of (constant sz c)) (NPoints / 2) i).2)
      (extent_at 0 (constant sz c))) as [lo len] eqn:Hs.
    apply (cell_constant sz c d 0 _ lo len Hlead Hs).
    rewrite HN in Hs. eapply final_window_items; [| |exact Hs]; lia.
  - apply getitem_constant; [exact Hlead|lia].
Qed.

Lemma elem_of_plan L h p :
  p ∈ plan L h <->
  (0 <= p.1 < h /\ p.2 = (0, p.1 + h + 1)) \/
  (h <= p.1 < L - h /\ p.2 = (p.1 - h, p.1 + h + 1)) \/
  (L - h <= p.1 < L /\ p.2 = (p.1 - h, L)).
Proof.
  unfold plan, start_plan, main_plan, end_plan.
  rewrite !elem_of_app, !list_elem_of_fmap. destruct p as [i w]. simpl.
  setoid_rewrite elem_of_range.
  split.
  - intros [(j & [= -> ->] & Hj)|[(j & [= -> ->] & Hj)|(j & [= -> ->] & Hj)]]; auto.
  - intros [[Hi ->]|[[Hi ->]|[Hi ->]]]; eauto 6.
Qed.

(** With at least [NPoints] items all requested bounds are proper. *)
Lemma plan_windows_in_range N NPoints :
  3 <= NPoints -> NPoints <= N ->
  Forall (in_range N) (plan N (NPoints / 2)).*2.
Proof.
  intros Hnp HN. apply Forall_fmap, Forall_forall. intros p Hp.
  apply elem_of_plan in Hp. unfold in_range. simpl.
  assert (1 <= NPoints / 2) by (apply Z.div_le_lower_bound; lia).
  assert (2 * (NPoints / 2) <= NPoints) by (apply Z.mul_div_le; lia).
  destruct Hp as [[Hi ->]|[[Hi ->]|[Hi ->]]]; simpl; lia.
Qed.

(** With fewer than [2 * h] items the end loop asks for a negative lower
    bound at every index that is also an index of the start loop. *)
Lemma plan_negative_start N h i :
  N < 2 * h -> N - h <= i < h -> i < N ->
  (i, (i - h, N)) ∈ plan N h /\ i - h < 0.
Proof.
  intros HN Hi HiN. split; [|lia].
  apply elem_of_plan. right; right. simpl. split; [lia|done].
Qed.

(* ===================================================================== *)
(** ** What each loop leaves behind *)
(* ===================================================================== *)

(** A window matters only through the items it selects. *)
Lemma cell_same_items v d k w w' :
  dim_index d (sizes v) = Some k ->
  slice_indices (Some w.1) (Some w.2) (extent_at k v)
    = slice_indices (Some w'.1) (Some w'.2) (extent_at k v) ->
  cell v d w = cell v d w'.
Proof.
  intros Hk Hs. unfold cell, getitem_slice. by rewrite Hk, Hs.
Qed.

Section PerLoop.
Context (variable : positive) (d : Dim) (NPoints : Z) (st : state) (v : Var).
Hypothesis Hv : heap st !! variable = Some v.
Hypothesis Hwf : wf v = true.
Hypothesis Hlead : leading d v.
Hypothesis Hnp : 3 <= NPoints.
Hypothesis Hlen : NPoints / 2 <= data_length_of v.

Lemma returned_items :
  exists o, returned variable d NPoints st o /\
    forall i, 0 <= i < data_length_of v ->
      getitem d i o = cell v d (final_window (data_length_of v) (NPoints / 2) i).
Proof.
  destruct (smoothdata_returns variable d NPoints st v Hv Hwf Hlead Hnp Hlen)
    as (o & Hcall & _ & _ & Hitems).
  exists o. split; [|done]. eexists _, _. split; [exact Hcall|].
  simpl. by rewrite lookup_insert_eq.
Qed.

(** Start indices that are not end indices keep their start window. *)
Lemma start_items :
  exists o, returned variable d NPoints st o /\
    forall i, 0 <= i < NPoints / 2 -> i < data_length_of v - NPoints / 2 ->
      getitem d i o = cell v d (0, i + NPoints / 2 + 1).
Proof.
  destruct returned_items as (o & Hret & Hitems). exists o. split; [done|].
  intros i Hi HiN. rewrite Hitems by lia. unfold final_window.
  rewrite (proj2 (Z.leb_gt _ _)) by lia.
  by rewrite (proj2 (Z.leb_gt (NPoints / 2) i)) by lia.
Qed.

(** The first item is the mean of [input[0 : h + 1]]. *)
Lemma first_item :
  exists o, returned variable d NPoints st o /\
            getitem d 0 o = cell v d (0, NPoints / 2 + 1).
Proof.
  assert (Hh : 1 <= NPoints / 2) by (apply Z.div_le_lower_bound; lia).
  destruct returned_items as (o & Hret & Hitems). exists o.
  split; [done|]. rewrite Hitems by lia.
  apply (cell_same_items v d 0%nat); [exact Hlead|].
  unfold final_window, slice_indices, clamp_bound.
  rewrite <- (leading_length d v Hlead).
  repeat case_match; simpl in *; f_equal; lia.
Qed.

(** End indices hold the mean over the slice [index - h : N]. *)
Lemma end_items :
  exists o, returned variable d NPoints st o /\
    forall i, data_length_of v - NPoints / 2 <= i < data_length_of v ->
      getitem d i o = cell v d (i - NPoints / 2, data_length_of v).
Proof.
  destruct returned_items as (o & Hret & Hitems). exists o. split; [done|].
  intros i Hi. rewrite Hitems by lia. unfold final_window.
  by rewrite (proj2 (Z.leb_le _ _)) by lia.
Qed.

End PerLoop.

(* ===================================================================== *)
(** ** Interior windows, overlaps and short inputs *)
(* ===================================================================== *)

(** C1, as amended.  On a well-formed variable that has [dim] outermost
    (every one-dimensional variable), with [N] items along [dim],
    [NPoints >= 3] and [h = NPoints / 2]: for every interior index
    [h <= i < N - h], the call returns and the item of the output at [i] is
    the mean over [dim] of the slice [i - h, i + h + 1) of the input.  That
    window holds [2 * h + 1] items: [NPoints] of them when [NPoints] is odd,
    [NPoints + 1] when it is even.  Nothing is said of a call without an
    interior index. *)
Theorem C1_interior_mean variable d NPoints st v N i :
  heap st !! variable = Some v -> wf v = true -> leading d v ->
  length_along v d = Ok N -> 3 <= NPoints ->
  NPoints / 2 <= i < N - NPoints / 2 ->
  exists out st' o w,
    smoothdata variable (Some d) NPoints st = (Ok out, st') /\
    heap st' !! out = Some o /\
    getitem_slice d (Some (i - NPoints / 2)) (Some (i + NPoints / 2 + 1)) v = Ok w /\
    getitem d i o = mean w d /\
    length_along w d = Ok (2 * (NPoints / 2) + 1) /\
    2 * (NPoints / 2) + 1 = (if Z.odd NPoints then NPoints else NPoints + 1).
Proof.
  intros Hv Hwf Hlead HN Hnp Hi.
  rewrite (leading_length_along d v Hlead) in HN. injection HN as HN.
  assert (Hh : 1 <= NPoints / 2) by (apply Z.div_le_lower_bound; lia).
  destruct (smoothdata_returns variable d NPoints st v Hv Hwf Hlead Hnp)
    as (o & Hcall & _ & _ & Hitems); [clear - HN Hi Hh; lia|].
  specialize (Hitems i ltac:(lia)).
  assert (Hfw : final_window (data_length_of v) (NPoints / 2) i
                = (i - NPoints / 2, i + NPoints / 2 + 1)).
  { unfold final_window.
    rewrite (proj2 (Z.leb_gt _ _)) by lia.
    by rewrite (proj2 (Z.leb_le (NPoints / 2) i)) by lia. }
  rewrite Hfw in Hitems. unfold cell in Hitems. simpl in Hitems.
  destruct (getitem_slice d (Some (i - NPoints / 2)) (Some (i + NPoints / 2 + 1)) v)
    as [w|x] eqn:Hw.
  - eexists _, _, o, w. split; [exact Hcall|]. simpl. rewrite lookup_insert_eq.
    repeat split; auto.
    + rewrite (slice_length d (i - NPoints / 2) (i + NPoints / 2 + 1) v w
                 (data_length_of v) (leading_length_along d v Hlead)
                 ltac:(lia) ltac:(lia) Hw).
      f_equal. lia.
    + apply odd_width.
  - exfalso. unfold getitem_slice in Hw. rewrite Hlead in Hw.
    by destruct (slice_indices _ _ _).
Qed.

(** The interior index 2 of five items smoothed with [NPoints = 4]. *)
Lemma C1_interior_mean_witness :
  exists out st' o w,
    smoothdata 1%positive (Some "x") 4 (store1 ramp5) = (Ok out, st') /\
    heap st' !! out = Some o /\
    getitem_slice "x" (Some (2 - 4 / 2)) (Some (2 + 4 / 2 + 1)) ramp5 = Ok w /\
    getitem "x" 2 o = mean w "x" /\
    length_along w "x" = Ok (2 * (4 / 2) + 1) /\
    2 * (4 / 2) + 1 = (if Z.odd 4 then 4 else 4 + 1).
Proof.
  apply (C1_interior_mean 1%positive "x" 4 (store1 ramp5) ramp5 5 2); closed.
Defined.

(** C1 as stated fails for an even size: with [NPoints = 4] on five items
    the interior index 2 receives the mean of the slice [0, 5), which holds
    5 items and not [NPoints] = 4. *)
Lemma C1_counterexample :
  4 / 2 <= 2 < 5 - 4 / 2 /\
  length_along ramp5 "x" = Ok 5 /\
  exists o w,
    (call ramp5 (Some "x") 4).1 = Ok o /\
    getitem_slice "x" (Some (2 - 4 / 2)) (Some (2 + 4 / 2 + 1)) ramp5 = Ok w /\
    getitem "x" 2 o = mean w "x" /\
    length_along w "x" = Ok 5 /\ 5 <> 4.
Proof.
  split; [closed|]. split; [by_compute|].
  exists (vec "x" [qnum 2 1; qnum 5 2; qnum 3 1; qnum 7 2; qnum 4 1]), ramp5.
  repeat split; by_compute.
Qed.

(** C8 as stated fails at [NPoints = 4]: on five items the call requests
    the window [0, 5) for index 2, five items and not four, and its outcome,
    output and requested slices are those of the call with [NPoints = 5]. *)
Lemma C8_counterexample :
  Z.even 4 = true /\ 4 <= 4 /\
  call ramp5 (Some "x") 4 = call ramp5 (Some "x") (4 + 1) /\
  (Some (2 - 4 / 2), Some (2 + 4 / 2 + 1)) ∈ (call ramp5 (Some "x") 4).2 /\
  exists w, getitem_slice "x" (Some (2 - 4 / 2)) (Some (2 + 4 / 2 + 1)) ramp5 = Ok w /\
            length_along w "x" = Ok (4 + 1) /\ 4 + 1 <> 4.
Proof.
  split; [reflexivity|]. split; [lia|]. split; [by_compute|]. split; [by_compute|].
  exists ramp5. repeat split; by_compute.
Qed.

(** [NPoints = 4] on five items. *)
Lemma C8_even_window_witness :
  smoothdata 1%positive (Some "x") 4 (store1 ramp5)
    = smoothdata 1%positive (Some "x") (4 + 1) (store1 ramp5) /\
  2 * (4 / 2) + 1 = 4 + 1 /\
  forall v k, heap (store1 ramp5) !! 1%positive = Some v ->
    dim_index "x" (sizes v) = Some k ->
    exists l,
      slices (smoothdata 1%positive (Some "x") 4 (store1 ramp5)).2
        = slices (store1 ramp5) ++ (None, None) :: (noted <$> l) /\
      l `prefix_of` (plan (data_length_of v) (4 / 2)).*2 /\
      (forall out, (smoothdata 1%positive (Some "x") 4 (store1 ramp5)).1 = Ok out ->
                   l = (plan (data_length_of v) (4 / 2)).*2).
Proof.
  apply (C8_even_window 1%positive "x" 4 (store1 ramp5)); closed.
Defined.

(** No dimension, [NPoints = 2], [NPoints = 1] and [NPoints = 3] on five
    items. *)
Lemma C5_precondition_errors_witness :
  smoothdata 1%positive None 3 (store1 ramp5)
    = (Raise (ValueError no_dim_msg), store1 ramp5) /\
  smoothdata 1%positive (Some "x") 2 (store1 ramp5)
    = (Raise (ValueError small_msg), store1 ramp5) /\
  smoothdata 1%positive (Some "x") 1 (store1 ramp5)
    = (Raise (ValueError small_msg), store1 ramp5) /\
  exists out st', smoothdata 1%positive (Some "x") 3 (store1 ramp5) = (Ok out, st').
Proof.
  destruct C5_precondition_errors as (Hnone & Hsmall & _ & Hthree).
  split; [apply Hnone|]. split; [apply Hsmall; lia|]. split; [apply Hsmall; lia|].
  apply (Hthree 1%positive "x" (store1 ramp5) ramp5); closed.
Defined.

(** The call of the worked example, store included. *)
Lemma run5 : smoothdata 1%positive (Some "x") 3 (store1 ramp5) = (Ok 2%positive, after5).
Proof. by_compute. Qed.

(** The worked example: the output is object 2, the input stays object 1. *)
Lemma C6_input_unchanged_witness :
  2%positive <> 1%positive /\ heap (store1 ramp5) !! 2%positive = None /\
  (exists v, heap (store1 ramp5) !! 1%positive = Some v /\
             heap after5 !! 1%positive = Some v) /\
  (forall r x, heap (store1 ramp5) !! r = Some x -> heap after5 !! r = Some x) /\
  is_Some (heap after5 !! 2%positive).
Proof.
  apply (C6_input_unchanged 1%positive (Some "x") 3 (store1 ramp5) 2%positive after5).
  by_compute.
Defined.

(** The worked example keeps its five items along [x]. *)
Lemma C7_shape_preserved_witness :
  exists o, heap after5 !! 2%positive = Some o /\ sizes o = sizes ramp5 /\
    wf o = true /\ forall d', length_along o d' = length_along ramp5 d'.
Proof.
  apply (C7_shape_preserved 1%positive "x" 3 (store1 ramp5) 2%positive after5 ramp5).
  - by_compute.
  - reflexivity.
  - reflexivity.
Defined.

(** C2 on three items with [NPoints = 5] ([h = 2]): index 1 is a start
    index and the mean of its start window [0, 4) is 20, yet the call
    returns 30 there.  The end loop visits index 1 again with the bounds
    [-1, 3), which select the last item only. *)
Theorem C2_start_index_overwritten :
  length_along tens3 "x" = Ok 3 /\ 0 <= 1 < 5 / 2 /\
  cell tens3 "x" (0, 1 + 5 / 2 + 1) = Ok (scalar (qnum 20 1)) /\
  call tens3 (Some "x") 5 =
    (Ok (vec "x" [qnum 20 1; qnum 30 1; qnum 20 1]),
     [(None, None); (Some 0, Some 3); (Some 0, Some 4);
      (Some (-1), Some 3); (Some 0, Some 3)]) /\
  getitem "x" 1 (vec "x" [qnum 20 1; qnum 30 1; qnum 20 1])
    = Ok (scalar (qnum 30 1)).
Proof. repeat split; closed. Qed.

(** C3 on a variable with two rows along [y] and five columns along [x],
    smoothed along [x] with [NPoints = 3]: index 4 is an end index and the
    mean of its window [3, 5) is (9/2, 45), yet the call returns the item of
    the input there, (5, 50).  [data_length] is 2, the extent of [y]; the
    loops visit the indices 0 and 1 only. *)
Theorem C3_inner_dimension_end_untouched :
  length_along grid25 "x" = Ok 5 /\ 5 - 3 / 2 <= 4 < 5 /\
  cell grid25 "x" (4 - 3 / 2, 5) = Ok (vec "y" [qnum 9 2; qnum 45 1]) /\
  exists o,
    call grid25 (Some "x") 3 =
      (Ok o, [(None, None); (Some 0, Some 2); (Some 0, Some 2)]) /\
    getitem "x" 4 o = Ok (vec "y" [qnum 5 1; qnum 50 1]) /\
    getitem "x" 4 o = getitem "x" 4 grid25.
Proof.
  split; [closed|]. split; [closed|]. split; [closed|].
  exists {| sizes := [("y", 2%nat); ("x", 5%nat)];
            values := Seq [Seq [qnum 3 2; qnum 3 2; qnum 3 1; qnum 4 1; qnum 5 1];
                           Seq [qnum 15 1; qnum 15 1; qnum 30 1; qnum 40 1;
                                qnum 50 1]] |}.
  repeat split; closed.
Qed.

(** C4 on one item with [NPoints = 5] ([h = 2], [N <= NPoints]): the start
    loop writes index 0 and then raises [IndexError] at index 1; the main
    and end loops never run and no variable is returned. *)
Theorem C4_short_input_raises :
  length_along one1 "x" = Ok 1 /\ 1 <= 5 /\
  call one1 (Some "x") 5 =
    (Raise IndexError, [(None, None); (Some 0, Some 3); (Some 0, Some 4)]).
Proof. repeat split; closed. Qed.

(** C9 on the constant (7, 7) with [NPoints = 7] ([h = 3]): the start loop
    raises [IndexError] at index 2 and nothing is returned. *)
Theorem C9_constant_short_raises :
  length_along sevens2 "x" = Ok 2 /\ 1 <= 2 /\ 3 <= 7 /\
  call sevens2 (Some "x") 7 =
    (Raise IndexError,
     [(None, None); (Some 0, Some 4); (Some 0, Some 5); (Some 0, Some 6)]).
Proof. repeat split; closed. Qed.

(** C10 on a variable with five rows along [y] and three columns along
    [x], smoothed along [x] with [NPoints = 3 <= N = 3]: [data_length] is 5,
    the main loop requests the bounds [1, 4) and [2, 5), which end past the
    three items, and raises [IndexError] at index 3. *)
Theorem C10_slice_past_the_end :
  length_along ones53 "x" = Ok 3 /\ 3 <= 3 /\
  call ones53 (Some "x") 3 =
    (Raise IndexError,
     [(None, None); (Some 0, Some 2); (Some 0, Some 3); (Some 1, Some 4);
      (Some 2, Some 5)]) /\
  ~ in_range 3 (1, 4).
Proof.
  split; [closed|]. split; [closed|]. split; [closed|].
  unfold in_range. simpl. lia.
Qed.

(** With [dim] outermost and at least [NPoints] items the call returns and
    every slice of the loops has proper bounds. *)
Theorem requested_slices_in_range variable d NPoints st v :
  heap st !! variable = Some v -> wf v = true -> leading d v ->
  3 <= NPoints -> NPoints <= data_length_of v ->
  exists out st' l,
    smoothdata variable (Some d) NPoints st = (Ok out, st') /\
    slices st' = slices st ++ (None, None) :: (noted <$> l) /\
    Forall (in_range (data_length_of v)) l.
Proof.
  intros Hv Hwf Hlead Hnp HN.
  assert (2 * (NPoints / 2) <= NPoints) by (apply Z.mul_div_le; lia).
  assert (1 <= NPoints / 2) by (apply Z.div_le_lower_bound; lia).
  destruct (smoothdata_returns variable d NPoints st v Hv Hwf Hlead Hnp)
    as (o & Hcall & _); [lia|].
  eexists _, _, _. split; [exact Hcall|]. split; [reflexivity|].
  by apply plan_windows_in_range.
Qed.

(* ===================================================================== *)
(** ** Further properties of the call *)
(* ===================================================================== *)

Lemma dim_index_None d sz : dim_index d sz = None <-> d ∉ sz.*1.
Proof.
  induction sz as [|[d' n] sz IH]; simpl.
  - split; [intros _; apply not_elem_of_nil | done].
  - rewrite not_elem_of_cons. case_bool_decide as Hd.
    + split; [done | intros [Hne _]; congruence].
    + destruct (dim_index d sz) as [k|]; simpl.
      * split; [done|]. intros [_ Hn]. by apply IH in Hn.
      * split; [|done]. intros _. split; [congruence|]. by apply IH.
Qed.

(** X1.  On a well-formed variable with [dim] outermost and at least
    [NPoints / 2] items the call returns a variable of the same sizes, and
    the item at every index is the mean over the window of the last loop
    that visits the index: the end loop if [N - h <= i], else the main loop
    if [h <= i], else the start loop. *)
Theorem X1_last_visit_decides variable d NPoints st v :
  heap st !! variable = Some v -> wf v = true -> leading d v ->
  3 <= NPoints -> NPoints / 2 <= data_length_of v ->
  exists o, returned variable d NPoints st o /\
    sizes o = sizes v /\ wf o = true /\
    forall i, 0 <= i < data_length_of v ->
      getitem d i o = cell v d (final_window (data_length_of v) (NPoints / 2) i).
Proof.
  intros Hv Hwf Hlead Hnp Hlen.
  destruct (smoothdata_returns variable d NPoints st v Hv Hwf Hlead Hnp Hlen)
    as (o & Hcall & Hso & Hwo & Hitems).
  exists o. repeat split; auto. eexists _, _. split; [exact Hcall|].
  simpl. by rewrite lookup_insert_eq.
Qed.

Lemma X1_last_visit_decides_witness :
  exists o, returned 1%positive "x" 5 (store1 tens3) o /\
    sizes o = sizes tens3 /\ wf o = true /\
    forall i, 0 <= i < data_length_of tens3 ->
      getitem "x" i o = cell tens3 "x" (final_window (data_length_of tens3) (5 / 2) i).
Proof. apply (X1_last_visit_decides 1%positive "x" 5 (store1 tens3) tens3); closed. Defined.

(** X2.  On a variable with [dim] outermost and fewer than [NPoints / 2]
    items, the empty one included, the call raises [IndexError]: the start
    loop requests the windows of the indices [0 .. N] and fails on writing
    index [N]; the main and end loops never run. *)
Theorem X2_short_input_raises variable d NPoints st v :
  heap st !! variable = Some v -> wf v = true -> leading d v ->
  3 <= NPoints -> data_length_of v < NPoints / 2 ->
  (smoothdata variable (Some d) NPoints st).1 = Raise IndexError /\
  slices (smoothdata variable (Some d) NPoints st).2 =
    slices st ++ (None, None) ::
      ((fun i => (Some 0, Some (i + NPoints / 2 + 1)))
         <$> range 0 (data_length_of v + 1)).
Proof.
  intros Hv Hwf Hlead Hnp Hlen.
  destruct (smoothdata_short variable d NPoints st v Hv Hwf Hlead Hnp Hlen)
    as (o & Hcall).
  rewrite Hcall. simpl. split; [done|]. do 2 f_equal.
  by rewrite <- list_fmap_compose.
Qed.

Lemma X2_short_input_raises_witness :
  (smoothdata 1%positive (Some "x") 7 (store1 sevens2)).1 = Raise IndexError /\
  slices (smoothdata 1%positive (Some "x") 7 (store1 sevens2)).2 =
    slices (store1 sevens2) ++ (None, None) ::
      ((fun i => (Some 0, Some (i + 7 / 2 + 1)))
         <$> range 0 (data_length_of sevens2 + 1)).
Proof. apply (X2_short_input_raises 1%positive "x" 7 (store1 sevens2) sevens2); closed. Defined.

(** X3.  A [dim] that is not a dimension of the variable makes the first
    slice, [variable[dim, :]], raise the dimension error: nothing has been
    copied, the heap is as before the call. *)
Theorem X3_unknown_dimension variable d NPoints st v :
  heap st !! variable = Some v -> d ∉ dims v -> 3 <= NPoints ->
  smoothdata variable (Some d) NPoints st =
    (Raise DimensionError,
     {| heap := heap st; slices := slices st ++ [(None, None)] |}).
Proof.
  intros Hv Hd Hnp. apply dim_index_None in Hd.
  destruct (smoothdata_cases variable d NPoints st Hnp)
    as [[Hnone _]|[(v' & Hv' & _ & Hcall)|(v' & k & Hv' & Hk)]];
    [congruence|done|].
  assert (v' = v) as -> by congruence. congruence.
Qed.

Lemma X3_unknown_dimension_witness :
  smoothdata 1%positive (Some "t") 3 (store1 ramp5) =
    (Raise DimensionError,
     {| heap := heap (store1 ramp5);
        slices := slices (store1 ramp5) ++ [(None, None)] |}).
Proof.
  apply (X3_unknown_dimension 1%positive "t" 3 (store1 ramp5) ramp5).
  - reflexivity.
  - apply (bool_decide_unpack _). vm_compute. exact I.
  - lia.
Defined.

(** X4.  Whatever the outcome, returned or raised, every object that
    existed before the call keeps its value and at most one new object has
    been allocated; when a check fails the store is unchanged. *)
Theorem X4_frame_whatever_the_outcome variable dim NPoints st :
  (forall r x, heap st !! r = Some x ->
     heap (smoothdata variable dim NPoints st).2 !! r = Some x) /\
  (heap (smoothdata variable dim NPoints st).2 = heap st \/
   exists o, heap (smoothdata variable dim NPoints st).2
             = <[fresh (dom (heap st)) := o]> (heap st)) /\
  ((dim = None \/ NPoints < 3) ->
     (smoothdata variable dim NPoints st).2 = st).
Proof.
  assert (Hkeep : forall o r x, heap st !! r = Some x ->
            <[fresh (dom (heap st)) := o]> (heap st) !! r = Some x).
  { intros o r x Hr. rewrite lookup_insert_ne; [done|].
    intros <-. by rewrite fresh_lookup in Hr. }
  destruct dim as [d|]; [|by repeat split; auto].
  destruct (Z.lt_ge_cases NPoints 3) as [Hlt|Hge].
  { unfold smoothdata. rewrite (proj2 (Z.ltb_lt NPoints 3) Hlt).
    by repeat split; auto. }
  split; [|split; [|intros [?|?]; [done|lia]]].
  - destruct (smoothdata_cases variable d NPoints st Hge)
      as [[_ ->]|[(v & _ & _ & ->)|(v & k & Hv & Hk)]]; [done|done|].
    rewrite (smoothdata_exec variable d NPoints st v k Hv Hk Hge). cbv zeta.
    destruct (exec v d _ v) as [[r o'] l]. simpl. apply Hkeep.
  - destruct (smoothdata_cases variable d NPoints st Hge)
      as [[_ ->]|[(v & _ & _ & ->)|(v & k & Hv & Hk)]]; [by left|by left|].
    rewrite (smoothdata_exec variable d NPoints st v k Hv Hk Hge). cbv zeta.
    destruct (exec v d _ v) as [[r o'] l]. simpl. right. by exists o'.
Qed.

Lemma X4_frame_whatever_the_outcome_witness :
  heap (smoothdata 1%positive (Some "x") 5 (store1 one1)).2 !! 1%positive = Some one1.
Proof.
  apply (X4_frame_whatever_the_outcome 1%positive (Some "x") 5 (store1 one1)).
  reflexivity.
Defined.

Lemma plan_windows_proper N h :
  1 <= h -> 2 * h <= N -> Forall (in_range N) (plan N h).*2.
Proof.
  intros Hh HN. apply Forall_fmap, Forall_forall. intros p Hp.
  apply elem_of_plan in Hp. unfold in_range. simpl.
  destruct Hp as [[Hi ->]|[[Hi ->]|[Hi ->]]]; simpl; lia.
Qed.

(** X6.  When the call returns on a variable with [dim] outermost, all
    the bounds the loops ask for satisfy [0 <= start < end <= N] exactly
    when [N >= 2 * (NPoints / 2)]. *)
Theorem X6_proper_bounds_iff variable d NPoints st v :
  heap st !! variable = Some v -> wf v = true -> leading d v ->
  3 <= NPoints -> NPoints / 2 <= data_length_of v ->
  exists out st' l,
    smoothdata variable (Some d) NPoints st = (Ok out, st') /\
    slices st' = slices st ++ (None, None) :: (noted <$> l) /\
    (Forall (in_range (data_length_of v)) l <->
     2 * (NPoints / 2) <= data_length_of v).
Proof.
  intros Hv Hwf Hlead Hnp Hlen.
  assert (Hh : 1 <= NPoints / 2) by (apply Z.div_le_lower_bound; lia).
  destruct (smoothdata_returns variable d NPoints st v Hv Hwf Hlead Hnp Hlen)
    as (o & Hcall & _).
  eexists _, _, _. split; [exact Hcall|]. split; [reflexivity|].
  split.
  - intros Hall. destruct (Z.le_gt_cases (2 * (NPoints / 2)) (data_length_of v))
      as [Hle|Hgt]; [done|exfalso].
    rewrite Forall_forall in Hall.
    set (N := data_length_of v) in *. set (h := NPoints / 2) in *.
    assert (Hin : (N - h, (N - h - h, N)) ∈ plan N h).
    { apply elem_of_plan. right; right. simpl. split; [lia|done]. }
    assert (Hw : (N - h - h, N) ∈ (plan N h).*2).
    { apply list_elem_of_fmap. by exists (N - h, (N - h - h, N)). }
    apply Hall in Hw. unfold in_range in Hw. simpl in Hw. lia.
  - intros Hle. by apply plan_windows_proper.
Qed.

Lemma X6_proper_bounds_iff_witness :
  exists out st' l,
    smoothdata 1%positive (Some "x") 5 (store1 tens3) = (Ok out, st') /\
    slices st' = slices (store1 tens3) ++ (None, None) :: (noted <$> l) /\
    (Forall (in_range (data_length_of tens3)) l <->
     2 * (5 / 2) <= data_length_of tens3).
Proof. apply (X6_proper_bounds_iff 1%positive "x" 5 (store1 tens3) tens3); closed. Defined.

Lemma range_app a b c : a <= b <= c -> range a c = range a b ++ range b c.
Proof.
  intros H. unfold range. replace (c - a) with ((b - a) + (c - b)) by lia.
  rewrite seqZ_app by lia. do 2 f_equal. lia.
Qed.

Lemma fmap_range_ext {A} (f g : Z -> A) a b :
  (forall i, a <= i < b -> f i = g i) -> f <$> range a b = g <$> range a b.
Proof.
  intros H. apply list_fmap_ext. intros k i Hk. apply H.
  apply elem_of_range. by apply list_elem_of_lookup_2 in Hk.
Qed.

(** With at least [2 * h] items the three ranges split the indices:
    each is visited once, in increasing order. *)
Lemma plan_each_once N h :
  1 <= h -> 2 * h <= N ->
  plan N h = (fun i => (i, final_window N h i)) <$> range 0 N.
Proof.
  intros Hh HN. unfold plan, start_plan, main_plan, end_plan.
  rewrite (range_app 0 h N) by lia. rewrite (range_app h (N - h) N) by lia.
  rewrite !fmap_app. f_equal; [|f_equal]; apply fmap_range_ext; intros i Hi;
    unfold final_window.
  - rewrite (proj2 (Z.leb_gt (N - h) i)) by lia.
    by rewrite (proj2 (Z.leb_gt h i)) by lia.
  - rewrite (proj2 (Z.leb_gt (N - h) i)) by lia.
    by rewrite (proj2 (Z.leb_le h i)) by lia.
  - by rewrite (proj2 (Z.leb_le (N - h) i)) by lia.
Qed.

(** X7.  With at least [2 * (NPoints / 2)] items the three ranges split
    the indices: the loops visit [0, 1, ..., N - 1] once each and in this
    order, so the call requests one window per index after the whole
    slice. *)
Theorem X7_each_index_once variable d NPoints st v :
  heap st !! variable = Some v -> wf v = true -> leading d v ->
  3 <= NPoints -> 2 * (NPoints / 2) <= data_length_of v ->
  plan (data_length_of v) (NPoints / 2)
    = (fun i => (i, final_window (data_length_of v) (NPoints / 2) i))
        <$> range 0 (data_length_of v) /\
  exists out st',
    smoothdata variable (Some d) NPoints st = (Ok out, st') /\
    slices st' = slices st ++ (None, None) ::
      ((fun i => noted (final_window (data_length_of v) (NPoints / 2) i))
         <$> range 0 (data_length_of v)).
Proof.
  intros Hv Hwf Hlead Hnp Hlen.
  assert (Hh : 1 <= NPoints / 2) by (apply Z.div_le_lower_bound; lia).
  pose proof (plan_each_once (data_length_of v) (NPoints / 2) Hh Hlen) as Hplan.
  split; [done|].
  destruct (smoothdata_returns variable d NPoints st v Hv Hwf Hlead Hnp)
    as (o & Hcall & _); [lia|].
  eexists _, _. split; [exact Hcall|]. simpl. do 2 f_equal.
  rewrite Hplan, <- !list_fmap_compose. done.
Qed.

Lemma X7_each_index_once_witness :
  plan (data_length_of ramp5) (4 / 2)
    = (fun i => (i, final_window (data_length_of ramp5) (4 / 2) i))
        <$> range 0 (data_length_of ramp5) /\
  exists out st',
    smoothdata 1%positive (Some "x") 4 (store1 ramp5) = (Ok out, st') /\
    slices st' = slices (store1 ramp5) ++ (None, None) ::
      ((fun i => noted (final_window (data_length_of ramp5) (4 / 2) i))
         <$> range 0 (data_length_of ramp5)).
Proof. apply (X7_each_index_once 1%positive "x" 4 (store1 ramp5) ramp5); closed. Defined.

(** Whatever the position of [d]: the loops run over the extent [L] of
    the outermost dimension. *)
(** X8.  Whatever the position of [dim], the loops run over the extent
    [L] of the outermost dimension: when [NPoints / 2 <= L] and [L] is at
    most the extent along [dim], the call returns, the items below [L] are
    the means over the windows computed for a length of [L], and the items
    from [L] on are those of the input. *)
Theorem X8_outermost_extent_rules variable d NPoints st v k :
  heap st !! variable = Some v -> wf v = true ->
  dim_index d (sizes v) = Some k -> 3 <= NPoints ->
  NPoints / 2 <= data_length_of v ->
  data_length_of v <= Z.of_nat (extent_at k v) ->
  exists o, returned variable d NPoints st o /\
    (forall i, 0 <= i < data_length_of v ->
       getitem d i o = cell v d (final_window (data_length_of v) (NPoints / 2) i)) /\
    (forall j, data_length_of v <= j < Z.of_nat (extent_at k v) ->
       getitem d j o = getitem d j v).
Proof.
  intros Hv Hwf Hk Hnp Hlen HLN.
  assert (Hh : 1 <= NPoints / 2) by (apply Z.div_le_lower_bound; lia).
  unfold returned.
  rewrite (smoothdata_exec variable d NPoints st v k Hv Hk Hnp). cbv zeta.
  destruct (exec_ok v d k Hk Hwf (plan (data_length_of v) (NPoints / 2)) v
              eq_refl Hwf) as (o & He & Hso & Hwo & Hkeep & Hlast).
  { eapply Forall_impl; [apply plan_in_range; lia|]. simpl. intros p Hp. lia. }
  rewrite He. exists o. split; [|split].
  - eexists _, _. split; [reflexivity|]. simpl. by rewrite lookup_insert_eq.
  - intros i Hi.
    destruct (plan_final (data_length_of v) (NPoints / 2) i)
      as (p1 & p2 & Hp & Hnot); [lia|lia|].
    by apply (Hlast p1 i _ p2).
  - intros j Hj. apply Hkeep; [lia|].
    rewrite plan_indices, !elem_of_app, !elem_of_range. lia.
Qed.

Lemma X8_outermost_extent_rules_witness :
  exists o, returned 1%positive "x" 3 (store1 grid25) o /\
    (forall i, 0 <= i < data_length_of grid25 ->
       getitem "x" i o
       = cell grid25 "x" (final_window (data_length_of grid25) (3 / 2) i)) /\
    (forall j, data_length_of grid25 <= j < Z.of_nat (extent_at 1 grid25) ->
       getitem "x" j o = getitem "x" j grid25).
Proof.
  apply (X8_outermost_extent_rules 1%positive "x" 3 (store1 grid25) grid25 1%nat);
    closed.
Defined.

Lemma leading_series d qs : leading d (series d qs).
Proof. unfold leading, series, vec. simpl. by rewrite bool_decide_eq_true_2. Qed.

Lemma wf_series d qs : wf (series d qs) = true.
Proof.
  unfold wf, shape, series, vec. simpl.
  rewrite Nat.eqb_refl. simpl. apply forallb_forall. intros x Hx.
  apply list_elem_of_In, list_elem_of_fmap in Hx as (q & -> & _). done.
Qed.

Lemma data_length_series d qs : data_length_of (series d qs) = Z.of_nat (length qs).
Proof. unfold data_length_of, series, vec. simpl. by rewrite length_fmap. Qed.

(** A window of a series is the series of the entries the slice
    selects. *)
Lemma slice_series d qs w lo len :
  slice_indices (Some w.1) (Some w.2) (length qs) = (lo, len) ->
  (lo + len <= length qs)%nat ->
  getitem_slice d (Some w.1) (Some w.2) (series d qs)
  = Ok (series d (take len (drop lo qs))).
Proof.
  intros Hs Hle. unfold getitem_slice, series, vec. cbn [sizes values].
  cbn [dim_index]. rewrite bool_decide_eq_true_2 by done.
  unfold extent_at, shape. cbn [sizes fmap list_fmap nth snd].
  rewrite length_fmap, Hs. cbn [rbind].
  cbn [alter list_alter fst slice_data items].
  rewrite <- fmap_drop, <- fmap_take, !length_fmap, length_take, length_drop.
  do 4 f_equal. lia.
Qed.

Lemma final_window_selected N h i :
  1 <= h <= Z.of_nat N -> 0 <= i < Z.of_nat N ->
  slice_indices (Some (final_window (Z.of_nat N) h i).1)
                (Some (final_window (Z.of_nat N) h i).2) N
  = (Z.to_nat (selected (Z.of_nat N) h i).1, Z.to_nat (selected (Z.of_nat N) h i).2)
  /\ 0 < (selected (Z.of_nat N) h i).2
  /\ 0 <= (selected (Z.of_nat N) h i).1
  /\ (selected (Z.of_nat N) h i).1 + (selected (Z.of_nat N) h i).2 <= Z.of_nat N.
Proof.
  intros Hh Hi. unfold final_window, selected, slice_indices, clamp_bound.
  repeat case_match; simpl in *; repeat split; try f_equal; lia.
Qed.

(** X9.  For a one-dimensional variable with entries [qs] and at least
    [NPoints / 2] of them, entry [i] of the output is the mean, as the
    library computes it, of the one-dimensional variable that holds the
    [s.2] entries of [qs] from position [s.1] on, [s = selected N h i]:
    [2 * h + 1] entries centred on [i] in the interior, fewer at the ends,
    and only the entries [N + i - h .. N - 1] at an index that is both a
    start and an end index.  The run is never empty and lies within the
    entries. *)
Theorem X9_series_entries variable d NPoints st qs :
  heap st !! variable = Some (series d qs) ->
  3 <= NPoints -> NPoints / 2 <= Z.of_nat (length qs) ->
  exists o, returned variable d NPoints st o /\
    forall i, 0 <= i < Z.of_nat (length qs) ->
      let s := selected (Z.of_nat (length qs)) (NPoints / 2) i in
      0 <= s.1 /\ 0 < s.2 /\ s.1 + s.2 <= Z.of_nat (length qs) /\
      getitem d i o =
        mean (series d (take (Z.to_nat s.2) (drop (Z.to_nat s.1) qs))) d.
Proof.
  intros Hv Hnp Hlen.
  assert (Hh : 1 <= NPoints / 2) by (apply Z.div_le_lower_bound; lia).
  destruct (smoothdata_returns variable d NPoints st (series d qs) Hv
              (wf_series d qs) (leading_series d qs) Hnp) as (o & Hcall & _ & _ & Hitems).
  { by rewrite data_length_series. }
  exists o. split.
  { eexists _, _. split; [exact Hcall|]. simpl. by rewrite lookup_insert_eq. }
  intros i Hi s.
  destruct (final_window_selected (length qs) (NPoints / 2) i) as (Hs & Hpos & Hlo & Hhi);
    [lia|lia|]. fold s in Hs, Hpos, Hlo, Hhi.
  repeat (split; [done|]).
  rewrite Hitems by (rewrite data_length_series; lia).
  rewrite data_length_series. unfold cell.
  rewrite (slice_series d qs _ _ _ Hs) by lia. done.
Qed.

Lemma X9_series_entries_witness :
  exists o, returned 1%positive "x" 5 (store1 (series "x" tens3q)) o /\
    forall i, 0 <= i < Z.of_nat (length tens3q) ->
      let s := selected (Z.of_nat (length tens3q)) (5 / 2) i in
      0 <= s.1 /\ 0 < s.2 /\ s.1 + s.2 <= Z.of_nat (length tens3q) /\
      getitem "x" i o =
        mean (series "x" (take (Z.to_nat s.2) (drop (Z.to_nat s.1) tens3q))) "x".
Proof.
  apply (X9_series_entries 1%positive "x" 5 (store1 (series "x" tens3q)) tens3q);
    closed.
Defined.
